(** * Stockade (floatperms): builder, registry and matcher

    A shallow embedding of [src/validator/validator.js] (the fluent
    validator builder behind its proxy), [src/main.js] (the provider
    registry) and [src/matcher/matcher.js] (parameter extraction and the
    evaluation of a compiled validator), followed by the properties that
    the specification states about them.

    Conventions of the embedding.
    - JavaScript values are the inductive [JS.value]: primitives,
      functions and plain objects.  A plain object is one whose prototype
      is [Object.prototype], as an object literal makes it; [VObj props]
      is the list of its own enumerable properties in [Object.keys]
      order.  A read [o[k]] follows the prototype chain: [JS.get] finds
      the members of [Object.prototype] under the names the object does
      not have itself, and [JS.assign] is the write [o[k] = v].
      [Object.prototype] is taken as the runtime provides it.
    - Where the sources enumerate or write an object ([Object.keys],
      [for ... in], [o[k] = v]) it is a plain one.  An array or an
      instance of another class has no constructor of its own in
      [JS.value] (what [Array.prototype] provides depends on the version
      of the runtime).  Where such an object is only read, as a field of
      the request is, it is the [VObj] of what a read finds before it
      reaches [Object.prototype]: the properties the object has itself,
      [length] included, and what the prototypes in between provide.
      The arrays the sources build themselves are typed apart, as lists.
    - A function value is [VFun f]; what the function does when it is
      called is given separately, by the behaviour tables that the matcher
      section takes as variables.
    - A call that can throw returns [inl error] or [inr result]; a call
      that mutates an object returns the new object next to its result, so
      that the state left behind by a throwing call stays visible. *)

From Stdlib Require Import ZArith String Ascii List Lia.
From stdpp Require Import base option list gmap strings fin_maps pretty.

(* ===================================================================== *)
(** ** JavaScript values *)
(* ===================================================================== *)

#[local] Set Warnings "-register-all".

Module JS.

Inductive value : Type :=
| VUndef
| VNull
| VBool (b : bool)
| VNum (n : Z)
| VStr (s : string)
| VFun (f : nat)
| VObj (props : list (string * value)).

(** [typeof v] *)
Definition typeof (v : value) : string :=
  match v with
  | VUndef => "undefined"
  | VNull => "object"
  | VBool _ => "boolean"
  | VNum _ => "number"
  | VStr _ => "string"
  | VFun _ => "function"
  | VObj _ => "object"
  end.

(** ToBoolean, as used by [!v], [a && b] and [a || b]. *)
Definition truthy (v : value) : bool :=
  match v with
  | VUndef | VNull => false
  | VBool b => b
  | VNum n => negb (n =? 0)%Z
  | VStr s => negb (String.eqb s "")
  | VFun _ | VObj _ => true
  end.

(** [v && (typeof v === 'object')]: the guard the sources use before they
    treat a value as a collection. *)
Definition is_proper_object (v : value) : bool :=
  truthy v && String.eqb (typeof v) "object".

(** Own-property lookup in a property list: the first binding of [k]. *)
Fixpoint assoc (k : string) (props : list (string * value)) : option value :=
  match props with
  | [] => None
  | (k', v) :: rest => if String.eqb k k' then Some v else assoc k rest
  end.

(** The function members of [Object.prototype], which every object
    inherits.  As values they are functions like any other; they are
    numbered from 1000 on. *)
Definition Object_prototype : list (string * value) :=
  [("constructor", VFun 1000); ("__defineGetter__", VFun 1001);
   ("__defineSetter__", VFun 1002); ("hasOwnProperty", VFun 1003);
   ("__lookupGetter__", VFun 1004); ("__lookupSetter__", VFun 1005);
   ("isPrototypeOf", VFun 1006); ("propertyIsEnumerable", VFun 1007);
   ("toString", VFun 1008); ("valueOf", VFun 1009);
   ("toLocaleString", VFun 1010)].

(** [Object.prototype] itself, as the value a read of [__proto__] hands
    out.  No object has two properties of one name, so a list that names
    a property twice is the list of no plain object; this one stands for
    [Object.prototype].  Its own [__proto__] reads [null], and every
    other read of it finds the functions above or nothing.  It is only
    ever read here: none of its properties is enumerable, and it is not
    one of the plain objects the sources enumerate. *)
Definition Object_prototype_object : value :=
  VObj [("__proto__", VNull); ("__proto__", VNull)].

Definition is_Object_prototype (v : value) : bool :=
  match v with
  | VObj [(k, VNull); (k', VNull)] =>
      String.eqb k "__proto__" && String.eqb k' "__proto__"
  | _ => false
  end.

(** [v instanceof Object]: functions and objects are, but for
    [Object.prototype], whose own prototype is [null]. *)
Definition instanceof_Object (v : value) : bool :=
  match v with
  | VFun _ => true
  | VObj _ => negb (is_Object_prototype v)
  | _ => false
  end.

(** What a plain object inherits under the name [k]: the function
    [Object.prototype] has under that name, or, under ['__proto__'],
    what the inherited getter returns, [Object.prototype] itself. *)
Definition inherited (k : string) : value :=
  match assoc k Object_prototype with
  | Some f => f
  | None => if String.eqb k "__proto__" then Object_prototype_object else VUndef
  end.

(** Whether every object inherits a member under the name [k].  All
    these members are truthy. *)
Definition inherited_name (k : string) : bool :=
  match assoc k Object_prototype with
  | Some _ => true
  | None => String.eqb k "__proto__"
  end.

(** [o[k]] for an object [o]: its own property, or else the member it
    inherits from [Object.prototype]; [undefined] when there is neither.
    (A read from a primitive or from a function finds what the wrapper
    prototypes provide; that is not described: the sources read from
    objects.) *)
Definition get (o : value) (k : string) : value :=
  match o with
  | VObj props => default (inherited k) (assoc k props)
  | _ => VUndef
  end.

(** [Object.keys(o)] *)
Definition keys (props : list (string * value)) : list string :=
  map fst props.

(** [o[k] = v] on a property list: an existing key keeps its position, a
    new key goes last. *)
Fixpoint set_prop (k : string) (v : value) (props : list (string * value))
  : list (string * value) :=
  match props with
  | [] => [(k, v)]
  | (k', v') :: rest =>
      if String.eqb k k' then (k, v) :: rest
      else (k', v') :: set_prop k v rest
  end.

(** [o[k] = v] on a plain object that is not frozen.  Under the name
    ['__proto__'], when the object has no own property of that name, the
    write reaches the setter [Object.prototype] provides: no property is
    stored.  (That setter replaces the prototype of the object when [v]
    is an object or [null]; the object then is no longer a plain one,
    which is not represented.) *)
Definition assign (k : string) (v : value) (props : list (string * value))
  : list (string * value) :=
  match assoc k props with
  | None => if String.eqb k "__proto__" then props else set_prop k v props
  | Some _ => set_prop k v props
  end.

(** [s.startsWith(p)] *)
Definition startsWith (p s : string) : bool := String.prefix p s.

(** [s.substr(1)] *)
Definition substr1 (s : string) : string :=
  match s with
  | EmptyString => EmptyString
  | String _ rest => rest
  end.

(** [s.split('.')]: the pieces between the dots; never empty. *)
Fixpoint split_dot (s : string) : list string :=
  match s with
  | EmptyString => [EmptyString]
  | String c rest =>
      if Ascii.eqb c "."%char then EmptyString :: split_dot rest
      else match split_dot rest with
           | [] => [String c EmptyString]
           | piece :: pieces => String c piece :: pieces
           end
  end.

(** [arr.indexOf(x)] on an array of strings; [None] stands for -1. *)
Fixpoint indexOf (x : string) (arr : list string) : option nat :=
  match arr with
  | [] => None
  | y :: rest => if String.eqb x y then Some 0 else S <$> indexOf x rest
  end.

(** [arr.filter((v, i, a) => a.indexOf(v) === i)] *)
Definition unique (arr : list string) : list string :=
  (fix go (i : nat) (l : list string) : list string :=
     match l with
     | [] => []
     | v :: rest =>
         if decide (indexOf v arr = Some i) then v :: go (S i) rest
         else go (S i) rest
     end) 0 arr.

(** The prefixes a string parameter definition may start with. *)
Definition valid_definition_prefix (s : string) : bool :=
  startsWith "?" s || startsWith "$" s || startsWith "req." s.

End JS.

Import JS.

(* ===================================================================== *)
(** ** The validator builder ([src/validator/validator.js]) *)
(* ===================================================================== *)

(** The [target] field of a validator: [null] on a fresh builder, the
    string ['*'] after [all()] / [any()], an array of names after
    [allOf(...)] / [anyOf(...)]. *)
Inductive target_field : Type :=
| TargetNull
| TargetStar
| TargetList (names : list string).

Definition typeof_target (t : target_field) : string :=
  match t with
  | TargetNull => "object"
  | TargetStar => "string"
  | TargetList _ => "object"
  end.

(** What [compile()] returns:
    [{ namespace, scheme, method, params, target, parallel? }]. *)
Record descriptor : Type := Descriptor {
  d_namespace : string;
  d_scheme : string;
  d_method : value;
  d_params : list (string * value);
  d_target : target_field;
  d_parallel : option bool
}.

Module Validator.

(** The fields the constructor of [class Validator] initialises (the
    back-reference [proxy] is the builder itself and is not a field
    here). *)
Record t : Type := Make {
  name : string;
  namespace : string;
  params : list (string * value);
  finalized : bool;
  method : value;
  target : target_field;
  execParallel : option bool
}.

(** The errors the builder throws, each carrying what its message
    interpolates. *)
Inductive error : Type :=
| FinalizedMethod (property : string)
    (* Attempted to call method "<property>" of an already finalized validator. *)
| FinalizedParameter (property : string)
    (* Attempted to set parameter "<property>" of an already finalized validator. *)
| ArgumentCount (property : string) (found : nat)
    (* Invalid argument list passed for validator parameter function ... *)
| InvalidStringDefinition (property : string)
    (* ... to an invalid string value. String-type parameter definitions must start with ... *)
| NotAString (property : string) (type : string) (v : value)
    (* ... Expected a string, but instead found: (<typeof v>) <v> *)
| NameNotAString (type : string) (v : value)
    (* Expected validation name of type string, but instead found: (<typeof v>) <v> *)
| NoNames (method : string)
    (* Expected at least one validation name passed for the `.<method>(...)` matcher method *)
| NotConstructible
    (* the runtime's TypeError: the class constructor was applied without `new` *)
| NotCallable (property : string).
    (* the runtime's TypeError: `__defineGetter__` / `__defineSetter__` was not
       given a function *)

(** What a call through the proxy hands back. *)
Inductive ret : Type :=
| RetProxy                      (* the builder itself, for chaining *)
| RetDescriptor (d : descriptor) (* from [compile()] *)
| RetValue (v : value)           (* from [inspect()] *)
| RetInherited (property : string)
    (* a function inherited from Object.prototype that does not write to
       the validator was applied to it; the value it returns is not
       followed *)
| RetAccessor (property : string) (key : value) (f : nat).
    (* [__defineGetter__(key, f)] or [__defineSetter__(key, f)] went
       through: the validator now has an accessor property under [key]
       and is no longer described by its data fields alone *)

Definition outcome : Type := t * (error + ret).

(** [new Validator(schemeName, schemeNamespace)] *)
Definition new (schemeName schemeNamespace : string) : t :=
  {| name := schemeName;
     namespace := schemeNamespace;
     params := [];
     finalized := false;
     method := VNull;
     target := TargetNull;
     execParallel := None |}.

(** [all()] *)
Definition all (v : t) : outcome :=
  ({| name := name v; namespace := namespace v; params := params v;
      finalized := true; method := VStr "all"; target := TargetStar;
      execParallel := execParallel v |}, inr RetProxy).

(** [any()] *)
Definition any (v : t) : outcome :=
  ({| name := name v; namespace := namespace v; params := params v;
      finalized := true; method := VStr "any"; target := TargetStar;
      execParallel := execParallel v |}, inr RetProxy).

(** The [forEach] of [allOf] / [anyOf]: push every string onto the target
    array, stop at the first value that is not a string. *)
Fixpoint push_names (validationNames : list value) (acc : list string)
  : list string * option error :=
  match validationNames with
  | [] => (acc, None)
  | VStr s :: rest => push_names rest (acc ++ [s])
  | bad :: _ => (acc, Some (NameNotAString (typeof bad) bad))
  end.

(** The common body of [allOf(...validationNames)] and
    [anyOf(...validationNames)]: the fields are assigned before the names
    are checked, so a throwing call leaves a finalized validator behind. *)
Definition ofNames (m : string) (validationNames : list value) (v : t)
  : outcome :=
  let '(names, err) := push_names validationNames [] in
  let v' := {| name := name v; namespace := namespace v; params := params v;
               finalized := true; method := VStr m;
               target := TargetList names;
               execParallel := execParallel v |} in
  match err with
  | Some e => (v', inl e)
  | None =>
      if Nat.eqb (length names) 0 then (v', inl (NoNames m))
      else (v', inr RetProxy)
  end.

Definition allOf := ofNames "allOf".
Definition anyOf := ofNames "anyOf".

(** [parallel()] *)
Definition parallel (v : t) : outcome :=
  ({| name := name v; namespace := namespace v; params := params v;
      finalized := finalized v; method := method v; target := target v;
      execParallel := Some true |}, inr RetProxy).

(** [compile()]: [parallel] is present only when [execParallel] is a
    boolean. *)
Definition compile (v : t) : descriptor :=
  {| d_namespace := namespace v;
     d_scheme := name v;
     d_method := method v;
     d_params := params v;
     d_target := target v;
     d_parallel := execParallel v |}.

(** [inspect()] *)
Definition inspect (v : t) : value := VObj [].

(** The methods [class Validator] declares. *)
Inductive own_method : Type :=
| MAll | MAny | MAllOf | MAnyOf | MParallel | MCompile | MInspect.

Definition own_method_of (property : string) : option own_method :=
  if String.eqb property "all" then Some MAll
  else if String.eqb property "any" then Some MAny
  else if String.eqb property "allOf" then Some MAllOf
  else if String.eqb property "anyOf" then Some MAnyOf
  else if String.eqb property "parallel" then Some MParallel
  else if String.eqb property "compile" then Some MCompile
  else if String.eqb property "inspect" then Some MInspect
  else None.

(** The function-valued members a validator inherits: the class
    constructor and the functions of [Object.prototype]. *)
Definition inherited_functions : list string :=
  ["constructor"; "hasOwnProperty"; "isPrototypeOf"; "propertyIsEnumerable";
   "toLocaleString"; "toString"; "valueOf"; "__defineGetter__";
   "__defineSetter__"; "__lookupGetter__"; "__lookupSetter__"].

(** [typeof obj[property] === 'function'] *)
Definition is_function_property (property : string) : bool :=
  match own_method_of property with
  | Some _ => true
  | None => bool_decide (property ∈ inherited_functions)
  end.

(** [obj[property].apply(target, args)] for a declared method. *)
Definition apply_own (m : own_method) (args : list value) (v : t) : outcome :=
  match m with
  | MAll => all v
  | MAny => any v
  | MAllOf => allOf args v
  | MAnyOf => anyOf args v
  | MParallel => parallel v
  | MCompile => (v, inr (RetDescriptor (compile v)))
  | MInspect => (v, inr (RetValue (inspect v)))
  end.

(** The function the proxy returns for a property that is not a function
    of the validator: it sets the parameter override [property] by
    [obj.params[property] = args[0]]. *)
Definition setParameter (property : string) (args : list value) (v : t)
  : outcome :=
  match args with
  | [a] =>
      if finalized v then (v, inl (FinalizedParameter property))
      else
        match a with
        | VStr s =>
            if valid_definition_prefix s then
              ({| name := name v; namespace := namespace v;
                  params := assign property a (params v);
                  finalized := finalized v; method := method v;
                  target := target v; execParallel := execParallel v |},
               inr RetProxy)
            else (v, inl (InvalidStringDefinition property))
        | _ => (v, inl (NotAString property (typeof a) a))
        end
  | _ => (v, inl (ArgumentCount property (length args)))
  end.

(** [obj[property].apply(target, args)] for a function the validator
    inherits.  The class constructor cannot be applied without [new].
    [__defineGetter__] and [__defineSetter__] throw unless their second
    argument is a function, and otherwise give the validator an accessor
    property: the [t] returned holds the data fields as they were, and
    [RetAccessor] says what was defined.  [valueOf] returns the
    validator, which the proxy replaces by itself.  The other functions
    only read. *)
Definition apply_inherited (property : string) (args : list value) (v : t)
  : outcome :=
  if String.eqb property "constructor" then (v, inl NotConstructible)
  else if String.eqb property "__defineGetter__"
          || String.eqb property "__defineSetter__" then
    match args with
    | key :: VFun f :: _ => (v, inr (RetAccessor property key f))
    | _ => (v, inl (NotCallable property))
    end
  else if String.eqb property "valueOf" then (v, inr RetProxy)
  else (v, inr (RetInherited property)).

(** [proxy[property](...args)]: the [get] trap of the proxy made by
    [ValidatorProvider.create], applied to [args]. *)
Definition call (property : string) (args : list value) (v : t) : outcome :=
  if is_function_property property then
    if finalized v && negb (String.eqb property "compile")
                   && negb (String.eqb property "inspect")
    then (v, inl (FinalizedMethod property))
    else
      match own_method_of property with
      | Some m => apply_own m args v
      | None => apply_inherited property args v
      end
  else setParameter property args v.


(** [ValidatorProvider.create(schemeName, schemeNamespace)] *)
Definition create (schemeName schemeNamespace : string) : t :=
  new schemeName schemeNamespace.

(** The builder's two states. *)
Definition Open (v : t) : Prop := finalized v = false.
Definition Finalized (v : t) : Prop := finalized v = true.

(** A chain of proxy calls, each on the builder the previous one left.
    A call that returns [RetAccessor] takes the validator out of [t]:
    [run] describes the chains that contain no such call. *)
Definition run (calls : list (string * list value)) (v : t) : t :=
  fold_left (fun acc c => fst (call (fst c) (snd c) acc)) calls v.

(** The property names that end a chain. *)
Definition terminal (property : string) : bool :=
  String.eqb property "all" || String.eqb property "any"
  || String.eqb property "allOf" || String.eqb property "anyOf".

End Validator.

(* ===================================================================== *)
(** ** The provider registry ([src/main.js]) *)
(* ===================================================================== *)

Module Registry.

(** What [register] stores under [namespaces[namespace][name]]. *)
Record entry : Type := Entry {
  name : string;
  validations : list string;
  provider : value
}.

(** The private [namespaces] collection: namespace, then scheme name. *)
Abbreviation store := (gmap string (gmap string entry)).

(** [const namespaces = { global: {} }] *)
Definition initial : store := {[ "global" := ∅ ]}.

Inductive error : Type :=
| NotAProperObject (type : string) (v : value)
    (* Expected provider object to be a proper object, but instead found: ... *)
| AlreadyRegistered (name namespace : string)
    (* Attempted to register a provider under already registered name ... *)
| InvalidParamPrefix (name namespace key : string)
    (* ... contains an invalid _params entry "<key>". The string value must begin with ... *)
| ParamNotAString (name namespace key type : string) (v : value).
    (* ... contains an invalid _params entry "<key>". Expected a string, but instead found ... *)

(** The names that are lifecycle handlers, never validations. *)
Definition reserved : list string := ["before"; "after"; "params"; "error"].

(** [(typeof namespace !== 'string') || (namespace.length === 0)] decides
    whether the namespace argument falls back to ['global']. *)
Definition namespace_or_global (namespace : value) : string :=
  match namespace with
  | VStr s => if Nat.eqb (String.length s) 0 then "global" else s
  | _ => "global"
  end.

(** The [for (const key in provider._params)] loop: the first entry that
    is not a well-prefixed string throws. *)
Fixpoint check_params (name namespace : string)
    (defs : list (string * value)) : option error :=
  match defs with
  | [] => None
  | (key, VStr s) :: rest =>
      if valid_definition_prefix s then check_params name namespace rest
      else Some (InvalidParamPrefix name namespace key)
  | (key, v) :: _ => Some (ParamNotAString name namespace key (typeof v) v)
  end.

(** [Object.keys(provider)
       .filter(k => typeof provider[k] === 'function')
       .filter(k => ['before','after','params','error'].indexOf(k) < 0)] *)
Definition extract_validations (provider : value) : list string :=
  match provider with
  | VObj props =>
      filter (fun k => indexOf k reserved = None)
        (filter (fun k => typeof (get provider k) = "function") (keys props))
  | _ => []
  end.

(** [register(provider, name, namespace)]: the store it leaves and the
    error it throws, if any.  The namespace object is created before the
    later checks, so a throwing call can still leave a new, empty
    namespace behind.  The test [ns[name]] is a read: besides a stored
    entry it finds what the namespace object inherits from
    [Object.prototype], so a name such as ['toString'] counts as taken.

    The store describes the namespaces whose names no object inherits a
    member under.  Under such a name ([inherited_name]) the read
    [namespaces[namespace]] finds a built-in object; what [register]
    writes on it is kept under that name here, but the properties the
    built-in object has of its own are not described, nor is what every
    other object then inherits of what is written on [Object.prototype]
    itself. *)
Definition register (provider : value) (name : string) (namespace : value)
    (namespaces : store) : store * option error :=
  if negb (is_proper_object provider) then
    (namespaces, Some (NotAProperObject (typeof provider) provider))
  else
    let namespace := namespace_or_global namespace in
    let ns := default ∅ (namespaces !! namespace) in
    let namespaces := <[namespace := ns]> namespaces in
    match ns !! name with
    | Some _ => (namespaces, Some (AlreadyRegistered name namespace))
    | None =>
      if inherited_name name
      then (namespaces, Some (AlreadyRegistered name namespace))
      else
        let defs := get provider "_params" in
        let bad :=
          if is_proper_object defs then
            match defs with
            | VObj entries => check_params name namespace entries
            | _ => None
            end
          else None in
        match bad with
        | Some e => (namespaces, Some e)
        | None =>
            let e := {| name := name;
                        validations := extract_validations provider;
                        provider := provider |} in
            (<[namespace := <[name := e]> ns]> namespaces, None)
        end
    end.

(** [unregister(name, namespace)]: the store it leaves and the entry it
    removes and returns; [None] when there is no entry to remove.  The
    call then returns what the read [ns[name]] finds: [undefined], or,
    for a name under which the namespace object inherits a member
    ([inherited_name]), that member, which is not an entry. *)
Definition unregister (name : string) (namespace : value)
    (namespaces : store) : store * option entry :=
  let namespace := namespace_or_global namespace in
  match namespaces !! namespace with
  | Some ns => (<[namespace := delete name ns]> namespaces, ns !! name)
  | None => (namespaces, None)
  end.

(** The stores the exported operations can produce from the initial one. *)
Inductive reachable : store -> Prop :=
| reach_initial : reachable initial
| reach_register provider name namespace namespaces :
    reachable namespaces ->
    reachable (fst (register provider name namespace namespaces))
| reach_unregister name namespace namespaces :
    reachable namespaces ->
    reachable (fst (unregister name namespace namespaces)).

(** The stores they produce when no call is given a namespace named like
    a member of [Object.prototype]: the stores [register] describes in
    full, over an [Object.prototype] that is as the runtime provides
    it. *)
Inductive ordinary : store -> Prop :=
| ordinary_initial : ordinary initial
| ordinary_register provider name namespace namespaces :
    inherited_name (namespace_or_global namespace) = false ->
    ordinary namespaces ->
    ordinary (fst (register provider name namespace namespaces))
| ordinary_unregister name namespace namespaces :
    inherited_name (namespace_or_global namespace) = false ->
    ordinary namespaces ->
    ordinary (fst (unregister name namespace namespaces)).

End Registry.

(* ===================================================================== *)
(** ** The matcher ([src/matcher/matcher.js]) *)
(* ===================================================================== *)

Module Matcher.

(** The request, a plain object.  [fields] are its properties
    ([cookies], [permissions], ..., and [param] itself, which has to be a
    function for [req.param(...)] to be a call); [param] is what that
    call returns. *)
Record request : Type := Request {
  param : string -> value;
  fields : list (string * value)
}.

(** The property [k] the request has of its own; [undefined] when it has
    none.  (For the names read below, [cookies], [permissions] and
    [param], under which nothing is inherited, this is [req[k]].) *)
Definition field (req : request) (k : string) : value :=
  default VUndef (assoc k (fields req)).

(** [req[k] = v] *)
Definition set_field (k : string) (v : value) (req : request) : request :=
  {| param := param req; fields := set_prop k v (fields req) |}.

(** What the matcher returns. *)
Record Result : Type := MkResult {
  hasPassed : bool;
  passedValidations : list string;
  failedValidations : list (string * value);   (* { name, explanation } *)
  thrownErrors : list value
}.

(** What the matcher throws. *)
Inductive error : Type :=
| NotAValidator (type : string) (v : value)
    (* Expected proper validator object ..., but received instead: ... *)
| NoCompileNoMethod
    (* The passed validator provides no compile function nor a valid method field. *)
| AlreadyCompiled
    (* The passed validator has already been compiled. *)
| MalformedTarget (type : string) (t : target_field)
    (* Received malformed validator! Expected the `target` property to be an array ... *)
| NamespaceNotFound (namespace : string)
    (* Failed to located namespace for validator! *)
| SchemeNotFound (scheme namespace : string)
    (* Failed to locate scheme for validator! *)
| DefinitionWithoutValue (name : string)
    (* Expected parameter definition value for "<name>" to contain a "value" field *)
| DefinitionBadPrefix (name definition : string)
    (* ... to start with one of '?', '$' or 'req.', but instead found: ... *)
| InvalidMethod (method : value)
    (* Invalid method type found for validator: "<method>". *)
| Thrown (e : value).
    (* a value thrown by a hook, by a validation called outside any [try],
       or by the runtime *)

(** The [TypeError] the runtime throws when a property of [undefined] is
    read or a non-function is called. *)
Definition type_error : value := VObj [("name", VStr "TypeError")].

(** How one call of a validation ends: it returns [v] (directly or as a
    promise that fulfils with [v]), it returns a promise that rejects with
    [e], or it throws [e] before returning anything. *)
Inductive call_outcome : Type :=
| Resolves (v : value)
| Rejects (e : value)
| Throws (e : value).

(** How a lifecycle handler ends.  A handler receives the request, the
    parameter definitions (or the resolved parameters) and the exports
    object, and may have changed each of them by the time it returns. *)
Inductive hook_outcome : Type :=
| HookDone (req : request) (params exports : list (string * value))
| HookThrew (req : request) (e : value).

(** A promise held by the parallel branch, by the way it will settle. *)
Inductive promise : Type :=
| Fulfils (v : value)
| RejectsWith (e : value).

Section Matcher.

(** What function [f] does when called as a validation,
    [f(params, req)].  Validations only read the request. *)
Variable validation : nat -> list (string * value) -> request -> call_outcome.

(** What function [f] does when called as a lifecycle handler,
    [f(req, params, exports)]. *)
Variable hook :
  nat -> request -> list (string * value) -> list (string * value) -> hook_outcome.

(** What function [f] returns when called as [validator.compile()] on an
    object that is not a builder. *)
Variable compile_of : nat -> descriptor.

(** [matchCompoundValidator(req, validator)].  The compound fan-out is
    not embedded: [matcher] is parametric in it. *)
Variable matchCompoundValidator : request -> value -> request * (error + Result).

(** The order in which concurrently launched promises settle:
    [settle i] is the time at which the promise of the [i]-th launched
    call settles; of two promises settling at the same time the one
    launched first is handled first. *)
Variable settle : nat -> nat.

(** The [reduce] of [extract] over the pieces of a ['req.'] path:
    [acc[key]] is a read like any other, so it also finds what [acc]
    inherits. *)
Definition traverse_step (acc : value) (key : string) : value :=
  if negb (is_proper_object acc) then VUndef else get acc key.

Definition traverse (req : request) (pieces : list string) : value :=
  fold_left traverse_step pieces (VObj (fields req)).

(** [pieces = definition.value.split('.'); pieces.shift()] *)
Definition path_pieces (definition : string) : list string :=
  tail (split_dot definition).

(** [req.cookies[name]]: reading a property of [undefined] or [null]
    throws; the read also finds what the cookies object inherits.  (Of
    cookies that are a primitive or a function, see [get].) *)
Definition cookie (req : request) (name : string) : error + value :=
  match field req "cookies" with
  | VUndef | VNull => inl (Thrown type_error)
  | cookies => inr (get cookies name)
  end.

(** The helper [extract(req, definition)] of [extractParams]. *)
Definition extract (req : request) (definition : string * value)
  : error + value :=
  let '(name, value) := definition in
  match value with
  | VObj props =>
      if instanceof_Object value then
        match assoc "value" props with
        | Some wrapped => inr wrapped
        | None => inl (DefinitionWithoutValue name)
        end
      else
        (* Object.prototype: definition.value.startsWith is not callable *)
        inl (Thrown type_error)
  | VFun _ =>
      (* a function is an instanceof Object and has no value field *)
      inl (DefinitionWithoutValue name)
  | VStr s =>
      if startsWith "?" s then
        match field req "param" with
        | VFun _ => inr (param req (substr1 s))
        | _ => inl (Thrown type_error)   (* req.param is not a function *)
        end
      else if startsWith "$" s then cookie req (substr1 s)
      else if negb (startsWith "req." s) then inl (DefinitionBadPrefix name s)
      else inr (traverse req (path_pieces s))
  | VUndef | VNull | VBool _ | VNum _ =>
      (* definition.value.startsWith is not callable *)
      inl (Thrown type_error)
  end.

(** [Object.keys(baseParams).map(paramName => ...)]: an override replaces
    the provider's default unless it is [undefined].  The override is
    read by [overrideDefs[paramName]], which also finds what the
    overrides object inherits. *)
Definition merge_definitions (overrideDefs baseParams : list (string * value))
  : list (string * value) :=
  map (fun paramName =>
         let maybeOverrideValue := get (VObj overrideDefs) paramName in
         (paramName,
          if negb (String.eqb (typeof maybeOverrideValue) "undefined")
          then maybeOverrideValue
          else default VUndef (assoc paramName baseParams)))
      (keys baseParams).

(** [paramDefs.forEach(def => { outParams[def.name] = extract(req, def) })] *)
Fixpoint extract_all (req : request) (paramDefs outParams : list (string * value))
  : error + list (string * value) :=
  match paramDefs with
  | [] => inr outParams
  | def :: rest =>
      match extract req def with
      | inl e => inl e
      | inr v => extract_all req rest (assign (fst def) v outParams)
      end
  end.

(** Calling [provider[handler](req, arg, exports)] when that member is a
    function; nothing happens otherwise. *)
Definition run_hook (provider : value) (handler : string) (req : request)
    (arg exports : list (string * value)) : hook_outcome :=
  match get provider handler with
  | VFun f => hook f req arg exports
  | _ => HookDone req arg exports
  end.

(** The last two statements before [return]: make sure [req.permissions]
    is an object, then bind the (frozen) exports under the scheme name. *)
Definition bind_exports (schemeName : string) (providerExports : list (string * value))
    (req : request) : request :=
  let permissions :=
    match field req "permissions" with
    | VObj props => props
    | _ => []
    end in
  set_field "permissions"
    (VObj (assign schemeName (VObj providerExports) permissions)) req.

(** [provider._params] when it is an object, [{}] otherwise. *)
Definition base_params (provider : value) : list (string * value) :=
  match get provider "_params" with
  | VObj props => props
  | _ => []
  end.

(** [extractParams(req, overrideDefs, provider, schemeName)].  Reading
    [provider._params] throws when there is no provider. *)
Definition extractParams (req : request) (overrideDefs : list (string * value))
    (provider : value) (schemeName : string)
  : request * (error + list (string * value)) :=
  match provider with
  | VUndef | VNull => (req, inl (Thrown type_error))
  | _ =>
  let baseParams := base_params provider in
  let paramDefs := merge_definitions overrideDefs baseParams in
  match run_hook provider "before" req paramDefs [] with
  | HookThrew req e => (req, inl (Thrown e))
  | HookDone req paramDefs providerExports =>
      match extract_all req paramDefs [] with
      | inl e => (req, inl e)
      | inr outParams =>
          match run_hook provider "params" req outParams providerExports with
          | HookThrew req e => (req, inl (Thrown e))
          | HookDone req outParams providerExports =>
              (bind_exports schemeName providerExports req, inr outParams)
          end
      end
  end
  end.

(** [`${namespace === 'global' ? '' : namespace + ':'}${scheme}:${target}`] *)
Definition qualified_name (namespace scheme target : string) : string :=
  ((if String.eqb namespace "global" then "" else namespace +:+ ":")
     +:+ scheme +:+ ":" +:+ target)%string.

(** Expanding ['*'] and removing duplicates:
    [target.reduce((acc, v) => acc.concat((v === '*') ? scheme.validations : v), [])
           .filter((v, i, arr) => arr.indexOf(v) === i)] *)
Definition expand_targets (validations target : list string) : list string :=
  unique
    (fold_left (fun acc v => acc ++ (if String.eqb v "*" then validations else [v]))
       target []).

(** [scheme.provider[methodName](params, req)]: calling a member that is
    not a function throws.  The member is read like any other, so a name
    such as ['toString'] finds the function the provider inherits. *)
Definition invoke (provider : value) (methodName : string)
    (params : list (string * value)) (req : request) : call_outcome :=
  match get provider methodName with
  | VFun f => validation f params req
  | _ => Throws type_error
  end.

(** The sequential branch: every call sits in its own [try]; a value is
    pushed onto [testResults], anything thrown or rejected onto
    [thrownErrors]. *)
Fixpoint run_sequential (provider : value) (params : list (string * value))
    (req : request) (targets : list string)
    (testResults thrownErrors : list value) : list value * list value :=
  match targets with
  | [] => (testResults, thrownErrors)
  | methodName :: rest =>
      match invoke provider methodName params req with
      | Resolves v =>
          run_sequential provider params req rest (testResults ++ [v]) thrownErrors
      | Rejects e | Throws e =>
          run_sequential provider params req rest testResults (thrownErrors ++ [e])
      end
  end.

(** The [forEach] of the parallel branch: it stands outside the [try], so
    a call that throws ends it (and the evaluation) at once. *)
Fixpoint launch (provider : value) (params : list (string * value))
    (req : request) (targets : list string) (promises : list promise)
  : value + list promise :=
  match targets with
  | [] => inr promises
  | methodName :: rest =>
      match invoke provider methodName params req with
      | Resolves v => launch provider params req rest (promises ++ [Fulfils v])
      | Rejects e => launch provider params req rest (promises ++ [RejectsWith e])
      | Throws e => inl e
      end
  end.

(** The rejection [Promise.all] reports: the one that settles first. *)
Fixpoint first_rejection (i : nat) (promises : list promise)
    (earliest : option (nat * value)) : option (nat * value) :=
  match promises with
  | [] => earliest
  | Fulfils _ :: rest => first_rejection (S i) rest earliest
  | RejectsWith e :: rest =>
      first_rejection (S i) rest
        (match earliest with
         | Some (t, e') => if settle i <? t then Some (settle i, e) else Some (t, e')
         | None => Some (settle i, e)
         end)
  end.

Definition fulfilled_value (p : promise) : option value :=
  match p with
  | Fulfils v => Some v
  | RejectsWith _ => None
  end.

(** [await Promise.all(promises)]: all the values in launch order, or the
    first rejection. *)
Definition Promise_all (promises : list promise) : value + list value :=
  match first_rejection 0 promises None with
  | Some (_, e) => inl e
  | None => inr (omap fulfilled_value promises)
  end.

(** [testResults.forEach((res, i) => ...)]: the name reported for
    [testResults[i]] is built from [targets[i]]. *)
Fixpoint classify (namespace scheme : string) (targets : list string) (i : nat)
    (testResults : list value)
    (passed : list string) (failed : list (string * value))
  : list string * list (string * value) :=
  match testResults with
  | [] => (passed, failed)
  | res :: rest =>
      let methodName :=
        qualified_name namespace scheme (default "undefined" (targets !! i)) in
      match res with
      | VBool true =>
          classify namespace scheme targets (S i) rest (passed ++ [methodName]) failed
      | _ =>
          let explanation :=
            if negb (String.eqb (typeof res) "boolean") then res else VUndef in
          classify namespace scheme targets (S i) rest passed
            (failed ++ [(methodName, explanation)])
      end
  end.

(** [v === s] for a string [s] *)
Definition strict_eq_string (v : value) (s : string) : bool :=
  match v with
  | VStr s' => String.eqb s' s
  | _ => false
  end.

(** The comma operator [a, b]: evaluates both operands, yields the
    second. *)
Definition comma (a b : string) : string := b.

(** [validator.parallel || scheme.provider._parallel] *)
Definition runParallel (validator : descriptor) (provider : value) : bool :=
  match d_parallel validator with
  | Some true => true
  | _ => truthy (get provider "_parallel")
  end.

(** Lines 201-221 of [matchTrueValidator]: launching the validations in
    parallel or in sequence.  The result is [testResults] and
    [thrownErrors], or the value thrown past both branches. *)
Definition run_validations (parallel : bool) (provider : value)
    (params : list (string * value)) (req : request) (targets : list string)
  : value + (list value * list value) :=
  if parallel then
    match launch provider params req targets [] with
    | inl e => inl e
    | inr promises =>
        match Promise_all promises with
        | inr values => inr (values, [])
        | inl e => inr ([], [e])
        end
    end
  else inr (run_sequential provider params req targets [] []).

(** Lines 223-255 of [matchTrueValidator]: sorting the test results into
    passed and failed, then the pass state.  The [switch] compares
    [validator.method] with the value of each [case] expression;
    ['all', 'allOf'] is a comma expression. *)
Definition verdict (validator : descriptor) (targets : list string)
    (testResults thrownErrors : list value) : error + Result :=
  let '(passed, failed) :=
    classify (d_namespace validator) (d_scheme validator) targets 0
      testResults [] [] in
  let results (pass : bool) :=
    {| hasPassed := pass;
       passedValidations := passed;
       failedValidations := failed;
       thrownErrors := thrownErrors |} in
  if 0 <? length thrownErrors then inr (results false)
  else if strict_eq_string (d_method validator) (comma "all" "allOf") then
    inr (results (Nat.eqb (length passed) (length targets)
                  && Nat.eqb (length failed) 0))
  else if strict_eq_string (d_method validator) (comma "any" "anyOf") then
    inr (results (0 <? length passed))
  else inl (InvalidMethod (d_method validator)).

(** [matchTrueValidator(req, validator)], against the registry
    [namespaces]: the request it leaves and what it returns or throws.
    [namespace[validator.scheme]] is a read: for a name with no entry
    under which the namespace object inherits a member, it finds that
    member, which has no [provider], and [extractParams] throws on
    reading [provider._params].  (For the namespaces the store
    describes, see [Registry.register].) *)
Definition matchTrueValidator (namespaces : Registry.store) (req : request)
    (validator : descriptor) : request * (error + Result) :=
  match d_target validator with
  | TargetList target =>
      match namespaces !! d_namespace validator with
      | None => (req, inl (NamespaceNotFound (d_namespace validator)))
      | Some namespace =>
          match namespace !! d_scheme validator with
          | None =>
              if inherited_name (d_scheme validator)
              then (req, inl (Thrown type_error))
              else (req, inl (SchemeNotFound (d_scheme validator)
                                (d_namespace validator)))
          | Some scheme =>
              let provider := Registry.provider scheme in
              let targets := expand_targets (Registry.validations scheme) target in
              match extractParams req (d_params validator) provider
                      (d_scheme validator) with
              | (req, inl e) => (req, inl e)
              | (req, inr params) =>
                  match run_validations (runParallel validator provider)
                          provider params req targets with
                  | inl e => (req, inl (Thrown e))
                  | inr (testResults, thrownErrors) =>
                      (req, verdict validator targets testResults thrownErrors)
                  end
              end
          end
      end
  | t => (req, inl (MalformedTarget (typeof_target t) t))
  end.

(** What [matcher] can be handed: a builder (the proxy made by
    [ValidatorProvider.create]) or any other value. *)
Inductive validator_arg : Type :=
| Built (b : Validator.t)
| Plain (v : value).

(** [matcher(req, validator)] *)
Definition matcher (namespaces : Registry.store) (req : request)
    (validator : validator_arg) : request * (error + Result) :=
  match validator with
  | Built b =>
      (* a proxy is an object, and its [compile] is always a function *)
      match Validator.call "compile" [] b with
      | (_, inr (Validator.RetDescriptor d)) => matchTrueValidator namespaces req d
      | _ => (req, inl (Thrown type_error))
      end
  | Plain v =>
      if negb (is_proper_object v) then (req, inl (NotAValidator (typeof v) v))
      else
        match get v "compile" with
        | VFun f => matchTrueValidator namespaces req (compile_of f)
        | _ =>
            if negb (String.eqb (typeof (get v "method")) "string") then
              (req, inl NoCompileNoMethod)
            else if negb (String.eqb (typeof (get v "schema")) "undefined") then
              (req, inl AlreadyCompiled)
            else matchCompoundValidator req v
        end
  end.

End Matcher.

End Matcher.

(* ===================================================================== *)
(** ** Reference definitions and concrete scenarios *)
(* ===================================================================== *)


(** A handler leaves the field [k] of the request alone. *)
Definition hook_preserves
    (hook : nat -> Matcher.request -> list (string * value) ->
            list (string * value) -> Matcher.hook_outcome)
    (k : string) : Prop :=
  forall f req arg exports,
    match hook f req arg exports with
    | Matcher.HookDone req' _ _ | Matcher.HookThrew req' _ =>
        Matcher.field req' k = Matcher.field req k
    end.

(** Every stored validation name is a callable member of its provider
    and is not a reserved lifecycle name. *)
Definition validations_sound (namespaces : Registry.store) : Prop :=
  forall namespace ns name e,
    namespaces !! namespace = Some ns -> ns !! name = Some e ->
    forall k, k ∈ Registry.validations e ->
      (k ∉ Registry.reserved) /\ typeof (get (Registry.provider e) k) = "function".

Module Scenario.

Import Matcher.

(** Function 1 passes, function 2 fails with an explanation, functions 3
    and 4 reject with an error of their own. *)
Definition validation (f : nat) (params : list (string * value))
    (req : request) : call_outcome :=
  match f with
  | 1 => Resolves (VBool true)
  | 2 => Resolves (VObj [("code", VStr "bad")])
  | 3 => Rejects (VStr "database unreachable")
  | 4 => Rejects (VStr "session store timeout")
  | _ => Resolves (VBool false)
  end.

(** Handler 10 exports the resolved [self] parameter; handler 11 exports
    a constant. *)
Definition hook (f : nat) (req : request) (arg exports : list (string * value))
  : hook_outcome :=
  match f with
  | 10 => HookDone req arg (set_prop "self" (default VUndef (assoc "self" arg)) exports)
  | 11 => HookDone req arg (set_prop "self" (VStr "potet") exports)
  | _ => HookDone req arg exports
  end.

Definition no_hook (f : nat) (req : request) (arg exports : list (string * value))
  : hook_outcome := HookDone req arg exports.


Definition compile_of (f : nat) : descriptor :=
  {| d_namespace := "global"; d_scheme := "user"; d_method := VStr "all";
     d_params := []; d_target := TargetList ["*"]; d_parallel := None |}.

Definition matchCompoundValidator (req : request) (v : value)
  : request * (error + Result) := (req, inl NoCompileNoMethod).

(** Two settling orders for calls launched together. *)
Definition in_launch_order (i : nat) : nat := i.
Definition in_reverse_order (i : nat) : nat := 10 - i.

(** A provider in the style of the README's [user] provider. *)
Definition user : value :=
  VObj [("_params", VObj [("self", VStr "req.auth.user")]);
        ("params", VFun 10);
        ("before", VFun 0);
        ("isLoggedIn", VFun 1);
        ("isAdministrator", VFun 2);
        ("label", VStr "users")].


(** A provider whose validations reach a failing backend. *)
Definition flaky : value :=
  VObj [("isLoggedIn", VFun 1);
        ("canReadAudit", VFun 3);
        ("canReadSession", VFun 4)].

(** A second provider registered under the name [user], in the namespace
    [potet]. *)
Definition potet_user : value :=
  VObj [("params", VFun 11); ("isLoggedIn", VFun 1)].

Definition registered : Registry.store :=
  fst (Registry.register potet_user "user" (VStr "potet")
    (fst (Registry.register flaky "flaky" VUndef
      (fst (Registry.register user "user" VUndef Registry.initial))))).

Definition req : request :=
  {| param := fun name => if String.eqb name "id" then VNum 7 else VUndef;
     fields := [("param", VFun 20);
                ("cookies", VObj [("loggedUser", VStr "ann")]);
                ("auth", VObj [("user", VObj [("id", VNum 7)])]);
                ("ip", VStr "10.0.0.1")] |}.



(** Hand-written descriptors (what a [compile] function may return). *)
Definition all_of_user : descriptor :=
  {| d_namespace := "global"; d_scheme := "user"; d_method := VStr "all";
     d_params := []; d_target := TargetList ["*"]; d_parallel := None |}.

Definition any_of_user : descriptor :=
  {| d_namespace := "global"; d_scheme := "user"; d_method := VStr "any";
     d_params := []; d_target := TargetList ["*"]; d_parallel := None |}.

Definition flaky_allOf (targets : list string) (parallel : option bool)
  : descriptor :=
  {| d_namespace := "global"; d_scheme := "flaky"; d_method := VStr "allOf";
     d_params := []; d_target := TargetList targets; d_parallel := parallel |}.

Definition user_in (namespace : string) : descriptor :=
  {| d_namespace := namespace; d_scheme := "user"; d_method := VStr "allOf";
     d_params := []; d_target := TargetList ["isLoggedIn"]; d_parallel := None |}.

End Scenario.

(* ===================================================================== *)
(** ** Compound validators ([matchCompoundValidator] in [src/matcher/matcher.js]) *)
(* ===================================================================== *)

Module Compound.

Import Matcher.

(** What [matchCompoundValidator] throws. *)
Inductive error : Type :=
| MalformedTarget
    (* Received malformed compound validator! Expected the `target` property to be an array *)
| TooFewTargets (found : nat)
    (* The `target` array should contain at least two elements, but it contains just ... *)
| BadMethod (type : string) (method : value)
    (* Expected a `method` of either 'allOf' or 'anyOf', but instead found: ... *)
| Unrecognized (type : string) (method : value).
    (* Unrecognized validator method found: ... *)

(** The Result of the no-op validator. *)
Definition nop_result : Result :=
  {| hasPassed := true;
     passedValidations := [":NOP"];
     failedValidations := [];
     thrownErrors := [] |}.

Section Compound.

(** What a target array holds: builders, other compound objects, or
    anything else the caller put there. *)
Variable validator : Type.

(** A compound object [{ method, target }]; [target] is [None] when the
    property is not an array (the no-op object has none). *)
Record t : Type := Make {
  method : value;
  target : option (list validator)
}.

(** How far the checks in front of the fan-out get. *)
Inductive guarded : Type :=
| Returns (r : Result)                (* the no-op: returned at once *)
| Throws (e : error)
| FansOut (targets : list validator). (* the array handed to the fan-out *)

(** Lines 267-290: the no-op shortcut and the three shape checks.  The
    length is checked on the array as given, before duplicates are
    removed. *)
Definition guard (v : t) : guarded :=
  if strict_eq_string (method v) "NOP" then Returns nop_result
  else
    match target v with
    | None => Throws MalformedTarget
    | Some targets =>
        if length targets <? 2 then Throws (TooFewTargets (length targets))
        else if negb (strict_eq_string (method v) "allOf"
                      || strict_eq_string (method v) "anyOf")
        then Throws (BadMethod (typeof (method v)) (method v))
        else FansOut targets
    end.

End Compound.

(** Lines 297-327: building the Result from the Results of the
    sub-validators.  The passed names are strings and are made unique by
    value.  The failed entries are objects, which [indexOf] compares by
    identity; every entry was allocated by the evaluation that reported
    it and occurs once, so that filter keeps them all. *)
Definition merge (method : value) (validationResults : list Result)
  : error + Result :=
  let passed := unique (concat (map passedValidations validationResults)) in
  let failed := concat (map failedValidations validationResults) in
  let thrown := concat (map thrownErrors validationResults) in
  let result (pass : bool) :=
    {| hasPassed := pass;
       passedValidations := passed;
       failedValidations := failed;
       thrownErrors := thrown |} in
  if strict_eq_string method "allOf" then
    inr (result (forallb hasPassed validationResults))
  else if strict_eq_string method "anyOf" then
    inr (result (existsb hasPassed validationResults))
  else inl (Unrecognized (typeof method) method).

End Compound.

Arguments Compound.Make {validator} _ _.
Arguments Compound.method {validator} _.
Arguments Compound.target {validator} _.
Arguments Compound.guard {validator} _.
Arguments Compound.Returns {validator} _.
Arguments Compound.Throws {validator} _.
Arguments Compound.FansOut {validator} _.

(* ===================================================================== *)
(** ** The exported helpers ([src/main.js]) *)
(* ===================================================================== *)

Module Permissions.

Inductive error : Type :=
| TooFewValidators (method : string) (found : nat)
    (* Expected at least two validators to be passed when creating a compound validator ... *)
| SchemeNotRegistered (scheme namespace : string)
    (* Attempted to build validator for scheme ... but no such scheme has been registered! *)
| MethodNotFound (method scheme namespace : string)
    (* Attempted to match against method ... but no such validation method exists! *)
| RuntimeTypeError.
    (* [ecTargets.forEach] on a target that is [null] or a string, or
       [scheme.validations.includes] on a member that is not an entry *)

(** [for(permissionSchemeName, schemeNamespace)]: the validator it
    returns.  The namespace falls back to ['global'] by the same test as
    in [register]. *)
Definition for_ (permissionSchemeName : string) (schemeNamespace : value)
  : Validator.t :=
  Validator.create permissionSchemeName
    (Registry.namespace_or_global schemeNamespace).

(** The [forEach] of the ['lifted'] handler: the first name that is
    neither a validation of the scheme nor ['*']. *)
Fixpoint first_unknown (validations ecTargets : list string) : option string :=
  match ecTargets with
  | [] => None
  | name :: rest =>
      if negb (bool_decide (name ∈ validations)) && negb (String.eqb name "*")
      then Some name
      else first_unknown validations rest
  end.

(** The handler [for] registers for the ['lifted'] event when it runs
    under sails, applied to the store and to the builder as they are
    when the event fires: the error it throws, if any.
    [namespace[permissionSchemeName]] is a read: for a name with no
    entry under which the namespace object inherits a member, it finds
    that member, which is truthy and has no [validations]; the check
    then throws at the first target, and passes when there is none.
    (For the namespaces the store describes, see [Registry.register].) *)
Definition lifted (namespaces : Registry.store)
    (permissionSchemeName schemeNamespace : string) (validator : Validator.t)
  : option error :=
  let namespace := default ∅ (namespaces !! schemeNamespace) in
  match namespace !! permissionSchemeName with
  | None =>
      if inherited_name permissionSchemeName then
        match d_target (Validator.compile validator) with
        | TargetList [] => None
        | _ => Some RuntimeTypeError
        end
      else Some (SchemeNotRegistered permissionSchemeName schemeNamespace)
  | Some scheme =>
      match d_target (Validator.compile validator) with
      | TargetList ecTargets =>
          match first_unknown (Registry.validations scheme) ecTargets with
          | Some name =>
              Some (MethodNotFound name permissionSchemeName schemeNamespace)
          | None => None
          end
      | _ => Some RuntimeTypeError
      end
  end.

(** The body shared by [anyOf(...validatorList)] and
    [allOf(...validatorList)]. *)
Definition compound {validator : Type} (method : string)
    (validatorList : list validator) : error + Compound.t validator :=
  if length validatorList <? 2
  then inl (TooFewValidators method (length validatorList))
  else inr (Compound.Make (VStr method) (Some validatorList)).

Definition anyOf {validator : Type} := @compound validator "anyOf".
Definition allOf {validator : Type} := @compound validator "allOf".

(** [none()] *)
Definition none {validator : Type} : Compound.t validator :=
  Compound.Make (VStr "NOP") None.

End Permissions.

(* ===================================================================== *)
(** ** Reference definitions for the evaluation properties *)
(* ===================================================================== *)

(** The value a call hands to [testResults], if it resolves. *)
Definition resolved_value (o : Matcher.call_outcome) : option value :=
  match o with
  | Matcher.Resolves v => Some v
  | _ => None
  end.

(** The value a call hands to [thrownErrors] in the sequential branch, if
    it rejects or throws. *)
Definition raised_value (o : Matcher.call_outcome) : option value :=
  match o with
  | Matcher.Resolves _ => None
  | Matcher.Rejects e | Matcher.Throws e => Some e
  end.

(** How the outcome [v] of the target [t] should be reported: as a passed
    name when it is exactly [true], otherwise as a failed entry. *)
Definition passed_name (namespace scheme : string) (tv : string * value)
  : option string :=
  match snd tv with
  | VBool true => Some (Matcher.qualified_name namespace scheme (fst tv))
  | _ => None
  end.

Definition failed_entry (namespace scheme : string) (tv : string * value)
  : option (string * value) :=
  match snd tv with
  | VBool true => None
  | VBool false => Some (Matcher.qualified_name namespace scheme (fst tv), VUndef)
  | v => Some (Matcher.qualified_name namespace scheme (fst tv), v)
  end.

(** A parameter definition that [register] and the builder accept. *)
Definition valid_definition (v : value) : Prop :=
  exists s, v = VStr s /\ valid_definition_prefix s = true.

(** The overrides a builder holds are definitions the builder accepts,
    and none is stored under the name ['__proto__']. *)
Definition overrides_valid (b : Validator.t) : Prop :=
  Forall (fun kv => valid_definition (snd kv)) (Validator.params b)
  /\ assoc "__proto__" (Validator.params b) = None.

(** The entry stored under a namespace and a name, if any. *)
Definition lookup_scheme (namespaces : Registry.store) (namespace name : string)
  : option Registry.entry :=
  namespaces !! namespace ≫= fun ns => ns !! name.

(** The evaluation of [validator] got as far as the validations: the
    scheme was found, the targets were expanded to [targets], and
    parameter extraction returned [params], leaving the request [req']. *)
Definition prepared
    (hook : nat -> Matcher.request -> list (string * value) ->
            list (string * value) -> Matcher.hook_outcome)
    (namespaces : Registry.store) (req : Matcher.request) (validator : descriptor)
    (scheme : Registry.entry) (targets : list string)
    (req' : Matcher.request) (params : list (string * value)) : Prop :=
  lookup_scheme namespaces (d_namespace validator) (d_scheme validator) = Some scheme
  /\ (exists target, d_target validator = TargetList target
                     /\ targets = Matcher.expand_targets
                                    (Registry.validations scheme) target)
  /\ Matcher.extractParams hook req (d_params validator)
       (Registry.provider scheme) (d_scheme validator) = (req', inr params).

(** The object [compile()] returns, as a value: the fields [matcher]
    reads from what it is handed.  [target] is written as [null], the
    string ['*'], or an object keyed by the positions of the names. *)
Definition descriptor_object (d : descriptor) : value :=
  VObj ([("namespace", VStr (d_namespace d));
         ("scheme", VStr (d_scheme d));
         ("method", d_method d);
         ("params", VObj (d_params d));
         ("target",
          match d_target d with
          | TargetNull => VNull
          | TargetStar => VStr "*"
          | TargetList names =>
              VObj (imap (fun i name => (pretty i, VStr name)) names)
          end)]
        ++ match d_parallel d with
           | Some p => [("parallel", VBool p)]
           | None => []
           end).

(* ===================================================================== *)
(** ** Properties of the value layer *)
(* ===================================================================== *)

Section ValueFacts.

Lemma assoc_set_prop_eq k v props : assoc k (set_prop k v props) = Some v.
Proof.
  induction props as [|[k' v'] rest IH]; simpl.
  - by rewrite String.eqb_refl.
  - destruct (String.eqb k k') eqn:E; simpl.
    + by rewrite String.eqb_refl.
    + by rewrite E.
Qed.

Lemma assoc_set_prop_ne k k' v props :
  k ≠ k' -> assoc k' (set_prop k v props) = assoc k' props.
Proof.
  intros Hne. induction props as [|[k0 v0] rest IH]; simpl.
  - destruct (String.eqb_spec k' k); [congruence | done].
  - destruct (String.eqb_spec k k0) as [->|Hk0]; simpl.
    + destruct (String.eqb_spec k' k0); [congruence | done].
    + destruct (String.eqb_spec k' k0); [done | apply IH].
Qed.

(** Only objects pass the guard [v && (typeof v === 'object')]. *)
Lemma is_proper_object_inv v :
  is_proper_object v = true -> exists props, v = VObj props.
Proof.
  unfold is_proper_object. destruct v; simpl; rewrite ?andb_false_r; try done.
  by eauto.
Qed.


Lemma split_dot_cons s : exists piece pieces, split_dot s = piece :: pieces.
Proof.
  destruct s as [|c rest]; simpl; [by eauto|].
  destruct (Ascii.eqb c "."); [by eauto|].
  destruct (split_dot rest); by eauto.
Qed.

(** Splitting a ['req.'] definition and dropping the first piece leaves the
    pieces of what follows the prefix. *)
Lemma path_pieces_req path :
  Matcher.path_pieces ("req." +:+ path) = split_dot path.
Proof.
  unfold Matcher.path_pieces. simpl.
  change (String.append "" path) with path.
  by destruct (split_dot_cons path) as (piece & pieces & ->).
Qed.




Lemma inherited_name_false k :
  inherited_name k = false -> inherited k = VUndef.
Proof.
  unfold inherited_name, inherited.
  destruct (assoc k Object_prototype); [done|]. by intros ->.
Qed.

Lemma inherited_name_true k :
  inherited_name k = true -> truthy (inherited k) = true.
Proof.
  unfold inherited_name, inherited.
  destruct (assoc k Object_prototype) as [f|] eqn:Hf.
  - intros _. revert Hf. unfold Object_prototype. simpl.
    repeat match goal with
           | |- context [if ?c then _ else _] => destruct c
           end; by intros [= <-].
  - by intros ->.
Qed.

(** A read of a name nothing is inherited under finds the own property
    or nothing. *)
Lemma get_own props k :
  inherited_name k = false -> get (VObj props) k = default VUndef (assoc k props).
Proof. intros Hk. unfold get. by rewrite (inherited_name_false k Hk). Qed.


Lemma assign_other k v props : k <> "__proto__" -> assign k v props = set_prop k v props.
Proof.
  intros Hk. unfold assign. destruct (assoc k props); [done|].
  apply String.eqb_neq in Hk. by rewrite Hk.
Qed.

Lemma assign_proto v props :
  assoc "__proto__" props = None -> assign "__proto__" v props = props.
Proof. intros Hk. unfold assign. by rewrite Hk. Qed.

End ValueFacts.

(* ===================================================================== *)
(** ** Properties of the builder *)
(* ===================================================================== *)

Section BuilderFacts.

Import Validator.

(** [compile()] goes through the proxy in both states and returns the
    descriptor without touching the builder. *)
Lemma call_compile b :
  call "compile" [] b = (b, inr (RetDescriptor (compile b))).
Proof. unfold call. simpl. by destruct (finalized b). Qed.



(** C4 (as amended).  [parallel()] goes through only while the builder is
    Open: it records the preference, changes no other field and returns
    the builder.  On a Finalized builder the proxy blocks it like every
    method other than [compile] and [inspect]: the call throws the
    already-finalized error and the builder is left as it was. *)
Theorem parallel_only_while_open (b : Validator.t) (args : list value) :
  call "parallel" args b =
    if finalized b then (b, inl (FinalizedMethod "parallel"))
    else ({| name := name b; namespace := namespace b; params := params b;
             finalized := false; method := method b; target := target b;
             execParallel := Some true |}, inr RetProxy).
Proof.
  unfold call. simpl. destruct (finalized b) eqn:E; simpl; [done|].
  unfold parallel. by rewrite E.
Qed.

(** C4 (as stated) fails: after [all()] the builder is Finalized and
    [parallel()] throws instead of recording the preference. *)
Lemma parallel_after_all_throws :
  let b := fst (call "all" [] (create "user" "global")) in
  Finalized b
  /\ call "parallel" [] b = (b, inl (FinalizedMethod "parallel"))
  /\ ~ (exists b', call "parallel" [] b = (b', inr RetProxy)).
Proof.
  simpl. split; [done|]. split; [done|]. intros [b' H]. discriminate H.
Qed.

(** C5 (as amended).  On an Open builder, the setter of a parameter
    [property] called with one value succeeds exactly when the value is a
    string starting with ['?'], ['$'] or ['req.'], and then returns the
    builder.  It stores the value under [property]; under the name
    ['__proto__'] the write reaches the setter inherited from
    [Object.prototype] and nothing is stored (the overrides object never
    has a property of that name of its own).  A value that is not a
    string (a literal-wrapper object included) throws the type-mismatch
    error carrying the value and its [typeof]; a string with another
    prefix throws the invalid-string error; the builder is unchanged in
    both cases. *)
Theorem setParameter_accepts_prefixed_strings
    (b : Validator.t) (property : string) (a : value)
    (Hopen : Open b) (Hparam : is_function_property property = false) :
  ((exists b', call property [a] b = (b', inr RetProxy))
     <-> exists s, a = VStr s /\ valid_definition_prefix s = true)
  /\ (forall s, a = VStr s -> valid_definition_prefix s = true ->
        property <> "__proto__" ->
        call property [a] b =
          ({| name := name b; namespace := namespace b;
              params := set_prop property a (params b);
              finalized := false; method := method b; target := target b;
              execParallel := execParallel b |}, inr RetProxy))
  /\ (forall s, a = VStr s -> valid_definition_prefix s = true ->
        property = "__proto__" -> assoc "__proto__" (params b) = None ->
        call property [a] b = (b, inr RetProxy))
  /\ (forall s, a = VStr s -> valid_definition_prefix s = false ->
        call property [a] b = (b, inl (InvalidStringDefinition property)))
  /\ ((forall s, a <> VStr s) ->
        call property [a] b = (b, inl (NotAString property (typeof a) a))).
Proof.
  unfold Open in Hopen. unfold call, setParameter. rewrite Hparam, Hopen.
  split; [split|split; [|split; [|split]]].
  - intros [b' H]. destruct a; try discriminate H.
    exists s. split; [done|]. by destruct (valid_definition_prefix s).
  - intros (s & -> & Hs). rewrite Hs. eauto.
  - intros s -> Hs Hne. by rewrite Hs, assign_other.
  - intros s -> Hs -> Hnone. rewrite Hs, assign_proto by done.
    destruct b. simpl in *. by subst.
  - intros s -> Hs. by rewrite Hs.
  - intros Hns. destruct a; try done. by destruct (Hns s).
Qed.

(** C5 (as stated) fails: a literal-wrapper object is refused with the
    type-mismatch error, and a wrongly prefixed string is refused with a
    different error, which carries no type. *)
Lemma setParameter_refuses_literal_wrapper :
  let b := create "user" "global" in
  let wrapper := VObj [("value", VNum 1)] in
  Open b
  /\ is_function_property "target" = false
  /\ call "target" [wrapper] b = (b, inl (NotAString "target" "object" wrapper))
  /\ call "target" [VStr "#banTargets"] b = (b, inl (InvalidStringDefinition "target")).
Proof. by repeat split. Qed.

Lemma setParameter_accepts_prefixed_strings_witness :
  let b := create "moderation" "global" in
  Open b
  /\ is_function_property "target" = false
  /\ is_function_property "__proto__" = false
  /\ call "target" [VStr "?banTargets"] b
     = ({| name := "moderation"; namespace := "global";
           params := [("target", VStr "?banTargets")];
           finalized := false; method := VNull; target := TargetNull;
           execParallel := None |}, inr RetProxy)
  /\ call "__proto__" [VStr "?banTargets"] b = (b, inr RetProxy)
  /\ call "target" [VNum 7] b = (b, inl (NotAString "target" "number" (VNum 7))).
Proof.
  intros b.
  pose proof (setParameter_accepts_prefixed_strings b "target" (VStr "?banTargets")
                eq_refl eq_refl) as (_ & Hok & _).
  pose proof (setParameter_accepts_prefixed_strings b "__proto__" (VStr "?banTargets")
                eq_refl eq_refl) as (_ & _ & Hproto & _).
  pose proof (setParameter_accepts_prefixed_strings b "target" (VNum 7)
                eq_refl eq_refl) as (_ & _ & _ & _ & Hbad).
  split; [reflexivity|]. split; [reflexivity|]. split; [reflexivity|].
  split; [apply (Hok "?banTargets" eq_refl eq_refl); discriminate|].
  split; [exact (Hproto "?banTargets" eq_refl eq_refl eq_refl eq_refl)|].
  apply Hbad. intros s' Hs'. discriminate Hs'.
Defined.

End BuilderFacts.

(* ===================================================================== *)
(** ** Properties of the registry *)
(* ===================================================================== *)

Section RegistryFacts.

Import Registry.

Lemma indexOf_None x (l : list string) : indexOf x l = None <-> x ∉ l.
Proof.
  induction l as [|y rest IH]; simpl.
  - split; [intros _; apply not_elem_of_nil | done].
  - destruct (String.eqb_spec x y) as [->|Hne].
    + split; [done | intros H; destruct H; left].
    + rewrite not_elem_of_cons. destruct (indexOf x rest); simpl.
      * split; [done | intros [_ H]; by apply IH in H].
      * split; [intros _; split; [done | by apply IH] | done].
Qed.

(** The two filters of [register] keep exactly the callable members that
    are not reserved. *)
Lemma extract_validations_spec props k :
  k ∈ extract_validations (VObj props)
  <-> k ∈ keys props
      /\ typeof (get (VObj props) k) = "function"
      /\ k ∉ reserved.
Proof.
  unfold extract_validations.
  rewrite !list_elem_of_filter, indexOf_None. tauto.
Qed.

(** An entry found after [register] was there before or is the one just
    built from the provider. *)
Lemma register_entries provider name namespace (namespaces : store) nsname ns nm e :
  fst (register provider name namespace namespaces) !! nsname = Some ns ->
  ns !! nm = Some e ->
  (exists ns0, namespaces !! nsname = Some ns0 /\ ns0 !! nm = Some e)
  \/ e = {| name := name; validations := extract_validations provider;
            provider := provider |}.
Proof.
  unfold register.
  destruct (negb (is_proper_object provider)); simpl; [by eauto|].
  set (nsn := namespace_or_global namespace).
  assert (Hold : forall ns1,
    <[nsn := default ∅ (namespaces !! nsn)]> namespaces !! nsname = Some ns1 ->
    ns1 !! nm = Some e ->
    exists ns0, namespaces !! nsname = Some ns0 /\ ns0 !! nm = Some e).
  { intros ns1 H1 H2. apply lookup_insert_Some in H1 as [[<- <-]|[_ H1]]; [|by eauto].
    destruct (namespaces !! nsn) as [ns0|] eqn:E; simpl in *; [by eauto|].
    by rewrite lookup_empty in H2. }
  destruct (default ∅ (namespaces !! nsn) !! name) eqn:Efree; simpl; [by eauto|].
  destruct (inherited_name name); simpl; [by eauto|].
  match goal with |- context [if ?c then ?a else ?b] => destruct (if c then a else b) end;
    simpl; [by eauto|].
  intros H1 H2. apply lookup_insert_Some in H1 as [[<- <-]|[Hne H1]].
  - apply lookup_insert_Some in H2 as [[<- <-]|[Hne H2]]; [by right|].
    left. apply (Hold (default ∅ (namespaces !! nsn))); [|done].
    by rewrite lookup_insert_eq.
  - left. by apply (Hold ns).
Qed.

Lemma unregister_entries name namespace (namespaces : store) nsname ns nm e :
  fst (unregister name namespace namespaces) !! nsname = Some ns ->
  ns !! nm = Some e ->
  exists ns0, namespaces !! nsname = Some ns0 /\ ns0 !! nm = Some e.
Proof.
  unfold unregister.
  destruct (namespaces !! namespace_or_global namespace) as [ns0|] eqn:E; simpl;
    [|by eauto].
  intros H1 H2. apply lookup_insert_Some in H1 as [[<- <-]|[_ H1]]; [|by eauto].
  apply lookup_delete_Some in H2 as [_ H2]. eauto.
Qed.

(** The invariant of the registry. *)
Lemma reachable_validations_sound namespaces :
  reachable namespaces -> validations_sound namespaces.
Proof.
  induction 1 as [|provider name namespace namespaces _ IH
                  |name namespace namespaces _ IH];
    intros nsname ns nm e Hns He k Hk.
  - unfold initial in Hns. apply lookup_singleton_Some in Hns as [_ <-].
    by rewrite lookup_empty in He.
  - destruct (register_entries _ _ _ _ _ _ _ _ Hns He) as [(ns0 & H0 & H1)| ->].
    + by apply (IH nsname ns0 nm e).
    + simpl in *. destruct provider; try by apply not_elem_of_nil in Hk.
      apply extract_validations_spec in Hk. tauto.
  - destruct (unregister_entries _ _ _ _ _ _ _ Hns He) as (ns0 & H0 & H1).
    by apply (IH nsname ns0 nm e).
Qed.

(** C8.  From any reachable store: when [register] accepts a provider,
    the entry it stores under the (defaulted) namespace and the name
    holds that very provider, and its validation names are exactly the
    provider's own members that are functions and are not one of
    [before], [after], [params], [error]; and in the store itself no
    entry lists a reserved name or a member that is not callable. *)
Theorem register_keeps_callable_unreserved
    (namespaces : store) (Hreach : reachable namespaces) :
  (forall provider name namespace namespaces',
     register provider name namespace namespaces = (namespaces', None) ->
     exists props ns e,
       provider = VObj props
       /\ namespaces' !! namespace_or_global namespace = Some ns
       /\ ns !! name = Some e
       /\ Registry.provider e = provider
       /\ forall k, k ∈ validations e
                    <-> k ∈ keys props
                        /\ typeof (get provider k) = "function"
                        /\ k ∉ reserved)
  /\ validations_sound namespaces.
Proof.
  split; [|by apply reachable_validations_sound].
  intros provider name namespace namespaces'. unfold register.
  destruct (is_proper_object provider) eqn:Hobj; simpl; [|by intros [=]].
  apply is_proper_object_inv in Hobj as [props ->].
  destruct (default ∅ (namespaces !! namespace_or_global namespace) !! name);
    [by intros [=]|].
  destruct (inherited_name name); [by intros [=]|].
  match goal with |- context [if ?c then ?a else ?b] => destruct (if c then a else b) end;
    [by intros [=]|].
  intros [= <-]. eexists props, _, _. split; [done|].
  split; [apply lookup_insert_eq|]. split; [apply lookup_insert_eq|].
  split; [done|]. simpl. intros k. apply extract_validations_spec.
Qed.

Lemma register_keeps_callable_unreserved_witness :
  let namespaces' := fst (register Scenario.user "user" VUndef initial) in
  reachable initial
  /\ register Scenario.user "user" VUndef initial = (namespaces', None)
  /\ (exists props ns e,
        Scenario.user = VObj props
        /\ namespaces' !! "global" = Some ns
        /\ ns !! "user" = Some e
        /\ Registry.provider e = Scenario.user
        /\ forall k, k ∈ validations e
                     <-> k ∈ keys props
                         /\ typeof (get Scenario.user k) = "function"
                         /\ k ∉ reserved)
  /\ validations_sound initial.
Proof.
  intros namespaces'.
  pose proof (register_keeps_callable_unreserved initial reach_initial)
    as [Hexact Hsound].
  split; [exact reach_initial|]. split; [reflexivity|].
  split; [|exact Hsound].
  exact (Hexact Scenario.user "user" VUndef namespaces' eq_refl).
Defined.

End RegistryFacts.

(* ===================================================================== *)
(** ** Properties of parameter extraction *)
(* ===================================================================== *)

Section ExtractionFacts.

Import Matcher.







Section Frame.

Variable hook :
  nat -> request -> list (string * value) -> list (string * value) -> hook_outcome.

Lemma run_hook_preserves k provider handler req arg exports :
  hook_preserves hook k ->
  match run_hook hook provider handler req arg exports with
  | HookDone req' _ _ | HookThrew req' _ => field req' k = field req k
  end.
Proof.
  intros Hk. unfold run_hook. destruct (get provider handler); try done.
  apply Hk.
Qed.



(** [extractParams] throws at once when there is no provider, and
    otherwise runs the two handlers around the extraction. *)
Lemma extractParams_cases req overrideDefs provider schemeName :
  extractParams hook req overrideDefs provider schemeName
  = (req, inl (Thrown type_error))
  \/ extractParams hook req overrideDefs provider schemeName
     = match run_hook hook provider "before" req
               (merge_definitions overrideDefs (base_params provider)) [] with
       | HookThrew req e => (req, inl (Thrown e))
       | HookDone req paramDefs providerExports =>
           match extract_all req paramDefs [] with
           | inl e => (req, inl e)
           | inr outParams =>
               match run_hook hook provider "params" req outParams providerExports with
               | HookThrew req e => (req, inl (Thrown e))
               | HookDone req outParams providerExports =>
                   (bind_exports schemeName providerExports req, inr outParams)
               end
           end
       end.
Proof. unfold extractParams. destruct provider; auto. Qed.



End Frame.



End ExtractionFacts.

(* ===================================================================== *)
(** ** Properties of the evaluation of a simple validator *)
(* ===================================================================== *)

Section EvaluationFacts.

Import Matcher.

(** The pass state, case by case.  A recorded error decides it alone;
    otherwise only ['allOf'] and ['anyOf'] have a case of their own. *)
Lemma verdict_with_thrown_errors validator targets testResults e thrown :
  exists r, verdict validator targets testResults (e :: thrown) = inr r
            /\ hasPassed r = false
            /\ thrownErrors r = e :: thrown.
Proof.
  unfold verdict. destruct (classify _ _ _ _ _ _ _) as [passed failed].
  simpl. by eauto.
Qed.

Lemma verdict_allOf validator targets testResults :
  d_method validator = VStr "allOf" ->
  exists r, verdict validator targets testResults [] = inr r
            /\ thrownErrors r = []
            /\ hasPassed r
               = (Nat.eqb (length (passedValidations r)) (length targets)
                  && Nat.eqb (length (failedValidations r)) 0).
Proof.
  intros Hm. unfold verdict. destruct (classify _ _ _ _ _ _ _) as [passed failed].
  rewrite Hm. simpl. by eauto.
Qed.

Lemma verdict_anyOf validator targets testResults :
  d_method validator = VStr "anyOf" ->
  exists r, verdict validator targets testResults [] = inr r
            /\ thrownErrors r = []
            /\ hasPassed r = (0 <? length (passedValidations r)).
Proof.
  intros Hm. unfold verdict. destruct (classify _ _ _ _ _ _ _) as [passed failed].
  rewrite Hm. simpl. by eauto.
Qed.

(** With no recorded error, ['all'] and ['any'] match neither [case] and
    fall to [default]. *)
Lemma verdict_all_any validator targets testResults :
  d_method validator = VStr "all" \/ d_method validator = VStr "any" ->
  verdict validator targets testResults []
  = inl (InvalidMethod (d_method validator)).
Proof.
  intros Hm. unfold verdict. destruct (classify _ _ _ _ _ _ _) as [passed failed].
  by destruct Hm as [-> | ->].
Qed.

(** C1, at the failing input.  With the README-style [user] provider
    registered (one validation passing, one failing, none throwing), the
    descriptors [{ method: 'all', target: ['*'] }] and
    [{ method: 'any', target: ['*'] }] do not get a Result: the
    evaluation throws the invalid-method error.  The builder's own
    [all()] does not get one either: its target is the string ['*'],
    which the array check refuses. *)
Theorem all_and_any_fall_to_default :
  let evaluate :=
    matchTrueValidator Scenario.validation Scenario.hook Scenario.in_launch_order
      Scenario.registered Scenario.req in
  let built :=
    Built (fst (Validator.call "all" [] (Validator.create "user" "global"))) in
  snd (evaluate Scenario.all_of_user) = inl (InvalidMethod (VStr "all"))
  /\ snd (evaluate Scenario.any_of_user) = inl (InvalidMethod (VStr "any"))
  /\ snd (matcher Scenario.validation Scenario.hook Scenario.compile_of
            Scenario.matchCompoundValidator Scenario.in_launch_order
            Scenario.registered Scenario.req built)
     = inl (MalformedTarget "string" TargetStar).
Proof. by vm_compute. Qed.

(** C2, at the failing input.  In parallel mode, when one validation
    passes and another rejects, the passing outcome is not collected; when
    two validations reject, only one rejection is recorded.  The
    sequential branch, on the same targets, collects the outcome and
    records both rejections. *)
Theorem parallel_rejection_discards_outcomes :
  let evaluate :=
    matchTrueValidator Scenario.validation Scenario.hook Scenario.in_launch_order
      Scenario.registered Scenario.req in
  snd (evaluate (Scenario.flaky_allOf ["isLoggedIn"; "canReadAudit"] (Some true)))
  = inr {| hasPassed := false; passedValidations := []; failedValidations := [];
           thrownErrors := [VStr "database unreachable"] |}
  /\ snd (evaluate (Scenario.flaky_allOf
                      ["isLoggedIn"; "canReadAudit"; "canReadSession"] (Some true)))
     = inr {| hasPassed := false; passedValidations := []; failedValidations := [];
              thrownErrors := [VStr "database unreachable"] |}
  /\ snd (evaluate (Scenario.flaky_allOf
                      ["isLoggedIn"; "canReadAudit"; "canReadSession"] None))
     = inr {| hasPassed := false; passedValidations := ["flaky:isLoggedIn"];
              failedValidations := [];
              thrownErrors := [VStr "database unreachable";
                               VStr "session store timeout"] |}.
Proof. by vm_compute. Qed.

(** C3, at the failing input.  In sequential mode with targets
    [canReadAudit, isLoggedIn], the first rejects and the second passes;
    the one test result is reported under the name of the first target. *)
Theorem sequential_outcome_misattributed :
  let provider := Scenario.flaky in
  let evaluate :=
    matchTrueValidator Scenario.validation Scenario.hook Scenario.in_launch_order
      Scenario.registered Scenario.req in
  invoke Scenario.validation provider "canReadAudit" [] Scenario.req
  = Rejects (VStr "database unreachable")
  /\ invoke Scenario.validation provider "isLoggedIn" [] Scenario.req
     = Resolves (VBool true)
  /\ snd (evaluate (Scenario.flaky_allOf ["canReadAudit"; "isLoggedIn"] None))
     = inr {| hasPassed := false; passedValidations := ["flaky:canReadAudit"];
              failedValidations := [];
              thrownErrors := [VStr "database unreachable"] |}.
Proof. by vm_compute. Qed.

(** C9, at the failing input.  Same registry, request, descriptor and
    validations; two validations launched together both reject.  The
    error that ends up in [thrownErrors] is the one that settles first. *)
Theorem parallel_error_depends_on_settling_order :
  let evaluate settle :=
    matchTrueValidator Scenario.validation Scenario.hook settle
      Scenario.registered Scenario.req
      (Scenario.flaky_allOf ["canReadAudit"; "canReadSession"] (Some true)) in
  snd (evaluate Scenario.in_launch_order)
  = inr {| hasPassed := false; passedValidations := []; failedValidations := [];
           thrownErrors := [VStr "database unreachable"] |}
  /\ snd (evaluate Scenario.in_reverse_order)
     = inr {| hasPassed := false; passedValidations := []; failedValidations := [];
              thrownErrors := [VStr "session store timeout"] |}
  /\ snd (evaluate Scenario.in_launch_order) <> snd (evaluate Scenario.in_reverse_order).
Proof. by vm_compute. Qed.

Section SettlingOrder.

Variable validation : nat -> list (string * value) -> request -> call_outcome.
Variable hook :
  nat -> request -> list (string * value) -> list (string * value) -> hook_outcome.
Variables settle1 settle2 : nat -> nat.

Lemma first_rejection_is_Some i promises earliest1 earliest2 :
  (is_Some earliest1 <-> is_Some earliest2) ->
  is_Some (first_rejection settle1 i promises earliest1)
  <-> is_Some (first_rejection settle2 i promises earliest2).
Proof.
  revert i earliest1 earliest2.
  induction promises as [|p rest IH]; intros i e1 e2 He; simpl; [done|].
  destruct p as [v|e]; [by apply IH|].
  apply IH.
  destruct e1 as [[t1 x1]|], e2 as [[t2 x2]|];
    repeat match goal with |- context [if ?c then _ else _] => destruct c end;
    split; eauto.
Qed.

(** Whether [Promise.all] fulfils, and with which values, does not depend
    on the settling order; which rejection it reports does. *)
Lemma Promise_all_settling_order promises :
  match Promise_all settle1 promises, Promise_all settle2 promises with
  | inr values1, inr values2 => values1 = values2
  | inl _, inl _ => True
  | _, _ => False
  end.
Proof.
  unfold Promise_all.
  pose proof (first_rejection_is_Some 0 promises None None (reflexivity _)) as H.
  destruct (first_rejection settle1 0 promises None) as [[t1 e1]|],
           (first_rejection settle2 0 promises None) as [[t2 e2]|]; try done.
  - destruct H as [H _]. by destruct (H (mk_is_Some _ _ eq_refl)).
  - destruct H as [_ H]. by destruct (H (mk_is_Some _ _ eq_refl)).
Qed.

(** What does hold of C9: two evaluations that differ only in the order
    in which the launched calls settle leave the same request, throw the
    same error or return Results with the same pass state, the same passed
    and failed lists and as many recorded errors. *)
Lemma settling_order_changes_only_the_error namespaces req validator :
  let first := matchTrueValidator validation hook settle1 namespaces req validator in
  let second := matchTrueValidator validation hook settle2 namespaces req validator in
  fst first = fst second
  /\ match snd first, snd second with
     | inr r1, inr r2 =>
         hasPassed r1 = hasPassed r2
         /\ passedValidations r1 = passedValidations r2
         /\ failedValidations r1 = failedValidations r2
         /\ length (thrownErrors r1) = length (thrownErrors r2)
     | inl e1, inl e2 => e1 = e2
     | _, _ => False
     end.
Proof.
  unfold matchTrueValidator.
  destruct (d_target validator) as [| |target]; try done.
  destruct (namespaces !! d_namespace validator) as [namespace|]; [|done].
  destruct (namespace !! d_scheme validator) as [scheme|];
    [|by destruct (inherited_name _)].
  destruct (extractParams _ _ _ _ _) as [req' [e|params]]; [done|].
  unfold run_validations.
  destruct (runParallel _ _).
  - destruct (launch _ _ _ _ _ _) as [e|promises]; [done|].
    pose proof (Promise_all_settling_order promises) as H.
    destruct (Promise_all settle1 promises) as [e1|values1],
             (Promise_all settle2 promises) as [e2|values2];
      [done|done|done|].
    subst values2. cbn [fst snd]. by destruct (verdict validator _ values1 []).
  - destruct (run_sequential _ _ _ _ _ _ _) as [testResults thrownErrors].
    cbn [fst snd]. by destruct (verdict validator _ testResults thrownErrors).
Qed.

End SettlingOrder.

Section Dispatch.

Variable validation : nat -> list (string * value) -> request -> call_outcome.
Variable hook :
  nat -> request -> list (string * value) -> list (string * value) -> hook_outcome.
Variable compile_of : nat -> descriptor.
Variable matchCompoundValidator : request -> value -> request * (error + Result).
Variable settle : nat -> nat.

(** A builder ended with [all()] or [any()] carries the string ['*'] as
    its target and is refused before any validation runs. *)
Lemma built_all_any_is_malformed namespaces req b m :
  Validator.Open b -> m = "all" \/ m = "any" ->
  matcher validation hook compile_of matchCompoundValidator settle namespaces req
    (Built (fst (Validator.call m [] b)))
  = (req, inl (MalformedTarget "string" TargetStar)).
Proof.
  unfold Validator.Open. intros Hopen Hm. unfold matcher.
  rewrite call_compile. by destruct Hm as [-> | ->]; unfold Validator.call; simpl;
    rewrite Hopen.
Qed.


End Dispatch.



End EvaluationFacts.

(* ===================================================================== *)
(** ** Further properties of the builder *)
(* ===================================================================== *)

Section BuilderLifecycle.

Import Validator.

Lemma terminal_cases m :
  terminal m = true -> m = "all" \/ m = "any" \/ m = "allOf" \/ m = "anyOf".
Proof.
  unfold terminal. rewrite !orb_true_iff, !String.eqb_eq. tauto.
Qed.

Lemma push_names_strings names acc :
  push_names (VStr <$> names) acc = (acc ++ names, None).
Proof.
  revert acc. induction names as [|n rest IH]; intros acc; simpl.
  - by rewrite app_nil_r.
  - rewrite IH. by rewrite <- app_assoc.
Qed.

Lemma push_names_accepted args acc names' :
  push_names args acc = (names', None) ->
  exists names, args = VStr <$> names /\ names' = acc ++ names.
Proof.
  revert acc. induction args as [|a rest IH]; intros acc; simpl.
  - intros [= <-]. exists []. by rewrite app_nil_r.
  - destruct a; try by intros [=].
    intros H. destruct (IH _ H) as (names & -> & ->).
    exists (s :: names). by rewrite <- app_assoc.
Qed.

Lemma push_names_refused names bad rest acc :
  (forall s, bad <> VStr s) ->
  push_names ((VStr <$> names) ++ bad :: rest) acc
  = (acc ++ names, Some (NameNotAString (typeof bad) bad)).
Proof.
  intros Hbad. revert acc. induction names as [|n names IH]; intros acc; simpl.
  - rewrite app_nil_r. destruct bad; try done. by destruct (Hbad s).
  - rewrite IH. by rewrite <- app_assoc.
Qed.

(** X1.  Finalization is one-way.  On a Finalized builder no call
    through the proxy changes any field; every call other than
    [compile] and [inspect] throws; [compile] keeps returning the same
    descriptor; so no chain of calls changes the builder. *)
Theorem finalized_builder_is_frozen
    (b : Validator.t) (property : string) (args : list value)
    (calls : list (string * list value))
    (Hfin : Finalized b) :
  fst (call property args b) = b
  /\ (property <> "compile" -> property <> "inspect" ->
      exists e, snd (call property args b) = inl e)
  /\ snd (call "compile" args b) = inr (RetDescriptor (compile b))
  /\ run calls b = b.
Proof.
  unfold Finalized in Hfin.
  assert (Hstate : forall p a, fst (call p a b) = b).
  { intros p a. unfold call. rewrite Hfin. simpl.
    destruct (is_function_property p) eqn:Hp.
    - destruct (String.eqb_spec p "compile") as [->|Hc]; [done|].
      destruct (String.eqb_spec p "inspect") as [->|Hi]; done.
    - unfold setParameter. rewrite Hfin. by destruct a as [|? [|]]. }
  split; [apply Hstate|]. split; [|split].
  - intros Hc Hi. unfold call. rewrite Hfin. simpl.
    destruct (is_function_property property).
    + apply String.eqb_neq in Hc, Hi. rewrite Hc, Hi. simpl. by eauto.
    + unfold setParameter. rewrite Hfin. destruct args as [|? [|]]; by eauto.
  - unfold call. simpl. by rewrite Hfin.
  - induction calls as [|[p a] rest IH]; simpl; [done|]. by rewrite Hstate.
Qed.

Lemma finalized_builder_is_frozen_witness :
  let b := fst (call "allOf" [VStr "isLoggedIn"] (create "user" "global")) in
  Finalized b
  /\ fst (call "target" [VStr "?id"] b) = b
  /\ (exists e, snd (call "target" [VStr "?id"] b) = inl e)
  /\ run [("parallel", []); ("anyOf", [VStr "isAdministrator"]); ("self", [VStr "$me"])] b
     = b.
Proof.
  intros b.
  pose proof (finalized_builder_is_frozen b "target" [VStr "?id"]
                [("parallel", []); ("anyOf", [VStr "isAdministrator"]);
                 ("self", [VStr "$me"])] eq_refl) as (Hstate & Hthrows & _ & Hrun).
  split; [reflexivity|]. split; [exact Hstate|].
  split; [apply Hthrows; discriminate | exact Hrun].
Defined.

(** X2.  Every terminal method finalizes an Open builder, whether it
    returns or throws: [allOf()] and [anyOf()] assign [finalized] and
    [method] before they check their arguments.  Scheme, namespace,
    parameter overrides and the parallel preference are kept. *)
Theorem terminal_call_finalizes
    (b : Validator.t) (m : string) (args : list value)
    (Hopen : Open b) (Hterm : terminal m = true) :
  let b' := fst (call m args b) in
  Finalized b'
  /\ method b' = VStr m
  /\ name b' = name b /\ namespace b' = namespace b
  /\ params b' = params b /\ execParallel b' = execParallel b
  /\ (m = "all" \/ m = "any" -> target b' = TargetStar /\ snd (call m args b) = inr RetProxy).
Proof.
  unfold Open in Hopen.
  destruct (terminal_cases m Hterm) as [-> | [-> | [-> | ->] ] ];
    unfold call; simpl; rewrite Hopen; simpl.
  - by repeat (split; [done|]).
  - by repeat (split; [done|]).
  - unfold allOf, ofNames. destruct (push_names args []) as [names [e|]]; simpl;
      [|destruct (length names =? 0); simpl];
      repeat (split; [done|]); by intros [H|H].
  - unfold anyOf, ofNames. destruct (push_names args []) as [names [e|]]; simpl;
      [|destruct (length names =? 0); simpl];
      repeat (split; [done|]); by intros [H|H].
Qed.

Lemma terminal_call_finalizes_witness :
  let b := create "user" "global" in
  Open b
  /\ snd (call "allOf" [] b) = inl (NoNames "allOf")
  /\ Finalized (fst (call "allOf" [] b))
  /\ method (fst (call "allOf" [] b)) = VStr "allOf".
Proof.
  intros b.
  pose proof (terminal_call_finalizes b "allOf" [] eq_refl eq_refl)
    as (Hfin & Hm & _).
  split; [reflexivity|]. split; [reflexivity|]. split; [exact Hfin | exact Hm].
Defined.

(** X3.  On an Open builder, [allOf(...)] / [anyOf(...)] return exactly
    when they are given at least one argument and every argument is a
    string; the compiled target is then the list of names as given, in
    order, duplicates included.  With no argument they throw the
    no-names error; otherwise they throw at the first argument that is
    not a string. *)
Theorem names_accepted_iff_nonempty_strings
    (b : Validator.t) (m : string) (args : list value)
    (Hopen : Open b) (Hm : m = "allOf" \/ m = "anyOf") :
  ((exists b', call m args b = (b', inr RetProxy))
     <-> args <> [] /\ exists names, args = VStr <$> names)
  /\ (forall names, args = VStr <$> names -> names <> [] ->
        snd (call m args b) = inr RetProxy
        /\ compile (fst (call m args b))
           = {| d_namespace := namespace b; d_scheme := name b;
                d_method := VStr m; d_params := params b;
                d_target := TargetList names; d_parallel := execParallel b |})
  /\ (args = [] -> snd (call m args b) = inl (NoNames m))
  /\ (forall names bad rest,
        args = (VStr <$> names) ++ bad :: rest -> (forall s, bad <> VStr s) ->
        snd (call m args b) = inl (NameNotAString (typeof bad) bad)).
Proof.
  unfold Open in Hopen.
  assert (Hcall : call m args b = ofNames m args b).
  { destruct Hm as [-> | ->]; unfold call; simpl; by rewrite Hopen. }
  rewrite Hcall. unfold ofNames.
  split; [split|split; [|split]].
  - destruct (push_names args []) as [names [e|]] eqn:Hpush; [by intros [? [=]]|].
    destruct (push_names_accepted _ _ _ Hpush) as (names0 & -> & ->).
    simpl in *. destruct names0; simpl; [by intros [? [=]]|].
    intros _. split; [done | by exists (s :: names0)].
  - intros [Hne (names & ->)]. rewrite push_names_strings. simpl.
    destruct names; [done|]. simpl. by eauto.
  - intros names -> Hne. rewrite push_names_strings. simpl.
    by destruct names.
  - by intros ->.
  - intros names bad rest -> Hbad.
    by rewrite push_names_refused.
Qed.

Lemma names_accepted_iff_nonempty_strings_witness :
  let b := create "user" "global" in
  let args := [VStr "isLoggedIn"; VStr "isAdministrator"; VStr "isLoggedIn"] in
  Open b
  /\ snd (call "anyOf" args b) = inr RetProxy
  /\ d_target (compile (fst (call "anyOf" args b)))
     = TargetList ["isLoggedIn"; "isAdministrator"; "isLoggedIn"].
Proof.
  intros b args.
  pose proof (names_accepted_iff_nonempty_strings b "anyOf" args eq_refl
                (or_intror eq_refl)) as (_ & Hok & _).
  destruct (Hok ["isLoggedIn"; "isAdministrator"; "isLoggedIn"] eq_refl)
    as [Hret Hcompile]; [discriminate|].
  split; [reflexivity|]. split; [exact Hret|]. by rewrite Hcompile.
Defined.

Lemma assoc_assign_ne k k' v props :
  k' <> k -> assoc k' (assign k v props) = assoc k' props.
Proof.
  intros Hne. unfold assign.
  destruct (assoc k props); [by apply assoc_set_prop_ne|].
  destruct (String.eqb k "__proto__"); [done | by apply assoc_set_prop_ne].
Qed.

(** X4.  A parameter override set through the proxy under a name other
    than ['__proto__'] is what [compile()] then reports under that name;
    under ['__proto__'] nothing is stored and [compile()] reports what
    it did before.  The overrides under other names, the state, the
    method and the target are not touched. *)
Theorem override_is_compiled
    (b : Validator.t) (property s : string)
    (Hopen : Open b) (Hparam : is_function_property property = false)
    (Hs : valid_definition_prefix s = true) :
  let b' := fst (call property [VStr s] b) in
  (property <> "__proto__" ->
     assoc property (d_params (compile b')) = Some (VStr s))
  /\ (property = "__proto__" -> assoc "__proto__" (params b) = None ->
        compile b' = compile b)
  /\ (forall other, other <> property ->
        assoc other (d_params (compile b')) = assoc other (d_params (compile b)))
  /\ Open b' /\ method b' = method b /\ target b' = target b.
Proof.
  unfold Open in *. unfold call, setParameter. rewrite Hparam, Hopen, Hs. simpl.
  split; [|split; [|split]].
  - intros Hne. rewrite assign_other by done. apply assoc_set_prop_eq.
  - intros -> Hnone. unfold compile. simpl. by rewrite assign_proto.
  - intros other Hother. by apply assoc_assign_ne.
  - done.
Qed.

Lemma override_is_compiled_witness :
  let b := fst (call "self" [VStr "req.auth.user"] (create "user" "global")) in
  let b' := fst (call "target" [VStr "?banTargets"] b) in
  Open b
  /\ assoc "target" (d_params (compile b')) = Some (VStr "?banTargets")
  /\ assoc "self" (d_params (compile b')) = Some (VStr "req.auth.user")
  /\ compile (fst (call "__proto__" [VStr "?banTargets"] b)) = compile b.
Proof.
  intros b b'.
  pose proof (override_is_compiled b "target" "?banTargets" eq_refl eq_refl eq_refl)
    as (Hset & _ & Hother & _).
  pose proof (override_is_compiled b "__proto__" "?banTargets" eq_refl eq_refl eq_refl)
    as (_ & Hproto & _).
  split; [reflexivity|]. split; [apply Hset; discriminate|].
  split; [|by apply Hproto].
  etransitivity; [apply (Hother "self"); discriminate | reflexivity].
Defined.

End BuilderLifecycle.

(* ===================================================================== *)
(** ** Further properties of the registry *)
(* ===================================================================== *)

Section RegistryContract.

Import Registry.

Lemma lookup_scheme_touch (namespaces : store) nsn namespace name :
  lookup_scheme (<[nsn := default ∅ (namespaces !! nsn)]> namespaces) namespace name
  = lookup_scheme namespaces namespace name.
Proof.
  unfold lookup_scheme. destruct (decide (nsn = namespace)) as [->|Hne].
  - rewrite lookup_insert_eq. destruct (namespaces !! namespace); simpl; [done|].
    apply lookup_empty.
  - by rewrite lookup_insert_ne.
Qed.

Lemma lookup_scheme_default (namespaces : store) namespace name :
  default ∅ (namespaces !! namespace) !! name = lookup_scheme namespaces namespace name.
Proof.
  unfold lookup_scheme. destruct (namespaces !! namespace); simpl; [done|].
  apply lookup_empty.
Qed.

Lemma check_params_None name namespace entries :
  check_params name namespace entries = None
  <-> Forall (fun kv => valid_definition (snd kv)) entries.
Proof.
  unfold valid_definition.
  induction entries as [|[key v] rest IH]; simpl; [by split; [constructor|]|].
  rewrite Forall_cons. simpl.
  destruct v; try (split; [done | by intros [(s' & [=] & _) _] ]).
  destruct (valid_definition_prefix s) eqn:Hs.
  - rewrite IH. split; [by eauto | tauto].
  - split; [done|]. intros [(s' & [= <-] & Hs') _]. congruence.
Qed.

(** What [register] leaves and returns, by the three checks. *)
Lemma register_unfold provider name namespace (namespaces : store) :
  let nsn := namespace_or_global namespace in
  let touched := <[nsn := default ∅ (namespaces !! nsn)]> namespaces in
  register provider name namespace namespaces =
    if negb (is_proper_object provider)
    then (namespaces, Some (NotAProperObject (typeof provider) provider))
    else match lookup_scheme namespaces nsn name with
         | Some _ => (touched, Some (AlreadyRegistered name nsn))
         | None =>
           if inherited_name name
           then (touched, Some (AlreadyRegistered name nsn))
           else
             match match get provider "_params" with
                   | VObj entries => check_params name nsn entries
                   | _ => None
                   end with
             | Some e => (touched, Some e)
             | None =>
                 (<[nsn := <[name := {| name := name;
                                        validations := extract_validations provider;
                                        provider := provider |}]>
                             (default ∅ (namespaces !! nsn))]> touched, None)
             end
         end.
Proof.
  intros nsn touched. unfold register. fold nsn.
  destruct (negb (is_proper_object provider)); [done|].
  rewrite lookup_scheme_default.
  destruct (lookup_scheme namespaces nsn name); [done|].
  destruct (inherited_name name); [done|].
  destruct (get provider "_params"); simpl; try done;
    match goal with |- context [is_proper_object ?v] =>
      by destruct (is_proper_object v) end.
Qed.

Lemma register_accepts
    (provider : value) (name : string) (namespace : value) (namespaces : store) :
  snd (register provider name namespace namespaces) = None
  <-> is_proper_object provider = true
      /\ lookup_scheme namespaces (namespace_or_global namespace) name = None
      /\ inherited_name name = false
      /\ forall entries, get provider "_params" = VObj entries ->
           Forall (fun kv => valid_definition (snd kv)) entries.
Proof.
  rewrite register_unfold.
  destruct (is_proper_object provider); simpl; [|by split; [|intros []]].
  destruct (lookup_scheme _ _ name); simpl; [by split; [|intros (_ & ? & _)]|].
  destruct (inherited_name name); simpl; [by split; [|intros (_ & _ & ? & _)]|].
  destruct (get provider "_params") as [| | | | | |entries];
    try by (split; [intros _; repeat split; by intros ? [=] | done]).
  destruct (check_params _ _ entries) eqn:Hcheck; simpl.
  - split; [done|]. intros (_ & _ & _ & H). specialize (H entries eq_refl).
    apply (check_params_None name (namespace_or_global namespace)) in H.
    congruence.
  - split; [|done]. intros _. repeat split. intros ? [= <-].
    by apply check_params_None in Hcheck.
Qed.

Lemma ordinary_reachable (namespaces : store) :
  ordinary namespaces -> reachable namespaces.
Proof. induction 1; by constructor. Qed.

(** A store built without such a namespace holds none. *)
Lemma ordinary_namespaces (namespaces : store) k :
  ordinary namespaces -> inherited_name k = true -> namespaces !! k = None.
Proof.
  intros Hstore Hk.
  induction Hstore as [|provider name namespace namespaces Hns _ IH
                       |name namespace namespaces Hns _ IH].
  - unfold initial. apply lookup_singleton_None. by intros <-.
  - assert (Hne : namespace_or_global namespace <> k).
    { intros Heq. rewrite Heq in Hns. congruence. }
    rewrite register_unfold.
    repeat match goal with
           | |- context [if ?c then _ else _] => destruct c
           | |- context [match ?c with Some _ => _ | None => _ end] => destruct c
           end; simpl; by rewrite ?lookup_insert_ne by done.
  - unfold unregister.
    destruct (namespaces !! namespace_or_global namespace) as [ns|] eqn:Hnsp; simpl;
      [|done].
    rewrite lookup_insert_ne; [done|].
    intros Heq. rewrite Heq in Hns. congruence.
Qed.

(** X5.  As long as no call is given a namespace named like a member of
    [Object.prototype] (neither this call nor those that built the
    store): [register] accepts a provider exactly when it is an object,
    the name is free in the (defaulted) namespace and is not the name of
    a member every object inherits (['toString'], ['constructor'],
    ['__proto__'], ...), and every entry of its [_params] object, if it
    has one, is a string starting with ['?'], ['$'] or ['req.'].  The
    store then holds no namespace named like such a member. *)
Theorem register_accepts_iff
    (provider : value) (name : string) (namespace : value) (namespaces : store)
    (Hns : inherited_name (namespace_or_global namespace) = false)
    (Hstore : ordinary namespaces) :
  (snd (register provider name namespace namespaces) = None
   <-> is_proper_object provider = true
       /\ lookup_scheme namespaces (namespace_or_global namespace) name = None
       /\ inherited_name name = false
       /\ forall entries, get provider "_params" = VObj entries ->
            Forall (fun kv => valid_definition (snd kv)) entries)
  /\ forall k, inherited_name k = true ->
       fst (register provider name namespace namespaces) !! k = None.
Proof.
  split; [exact (register_accepts provider name namespace namespaces)|].
  intros k Hk. apply ordinary_namespaces; [|done]. by apply ordinary_register.
Qed.

Lemma register_entries_after
    (provider : value) (name : string) (namespace : value) (namespaces : store)
    (other_namespace other_name : string) :
  let nsn := namespace_or_global namespace in
  let namespaces' := fst (register provider name namespace namespaces) in
  (snd (register provider name namespace namespaces) <> None ->
     lookup_scheme namespaces' other_namespace other_name
     = lookup_scheme namespaces other_namespace other_name)
  /\ ((other_namespace, other_name) <> (nsn, name) ->
        lookup_scheme namespaces' other_namespace other_name
        = lookup_scheme namespaces other_namespace other_name)
  /\ (snd (register provider name namespace namespaces) = None ->
        lookup_scheme namespaces' nsn name
        = Some {| name := name; validations := extract_validations provider;
                  provider := provider |}).
Proof.
  intros nsn namespaces'. unfold namespaces'. rewrite register_unfold. fold nsn.
  destruct (negb (is_proper_object provider)); simpl; [done|].
  destruct (lookup_scheme namespaces nsn name); simpl;
    [by rewrite lookup_scheme_touch|].
  destruct (inherited_name name); simpl; [by rewrite lookup_scheme_touch|].
  match goal with |- context [match ?c with Some _ => _ | None => _ end] =>
    destruct c end; simpl; [by rewrite lookup_scheme_touch|].
  split; [done|]. split.
  - intros Hne. unfold lookup_scheme at 1.
    destruct (decide (nsn = other_namespace)) as [<-|Hns].
    + rewrite lookup_insert_eq. simpl. rewrite lookup_insert_ne by congruence.
      apply lookup_scheme_default.
    + rewrite lookup_insert_ne by done. by apply lookup_scheme_touch.
  - intros _. unfold lookup_scheme. rewrite lookup_insert_eq. simpl.
    apply lookup_insert_eq.
Qed.

(** X6.  As long as no call is given a namespace named like a member of
    [Object.prototype] (neither this call nor those that built the
    store), [register] changes at most one entry.  A call that throws changes
    none (it may leave a new, empty namespace); a call that returns adds
    the entry for its (namespace, name) and leaves every other entry of
    every namespace as it was. *)
Theorem register_touches_one_entry
    (provider : value) (name : string) (namespace : value) (namespaces : store)
    (other_namespace other_name : string)
    (Hns : inherited_name (namespace_or_global namespace) = false)
    (Hstore : ordinary namespaces) :
  let nsn := namespace_or_global namespace in
  let namespaces' := fst (register provider name namespace namespaces) in
  (snd (register provider name namespace namespaces) <> None ->
     lookup_scheme namespaces' other_namespace other_name
     = lookup_scheme namespaces other_namespace other_name)
  /\ ((other_namespace, other_name) <> (nsn, name) ->
        lookup_scheme namespaces' other_namespace other_name
        = lookup_scheme namespaces other_namespace other_name)
  /\ (snd (register provider name namespace namespaces) = None ->
        lookup_scheme namespaces' nsn name
        = Some {| name := name; validations := extract_validations provider;
                  provider := provider |}).
Proof. exact (register_entries_after provider name namespace namespaces other_namespace other_name). Qed.

(** What [unregister] returns and leaves. *)
Lemma unregister_spec name namespace (namespaces : store) :
  let nsn := namespace_or_global namespace in
  snd (unregister name namespace namespaces) = lookup_scheme namespaces nsn name
  /\ forall other_namespace other_name,
       lookup_scheme (fst (unregister name namespace namespaces))
         other_namespace other_name
       = if decide ((other_namespace, other_name) = (nsn, name)) then None
         else lookup_scheme namespaces other_namespace other_name.
Proof.
  intros nsn. unfold unregister. fold nsn.
  destruct (namespaces !! nsn) as [ns|] eqn:Hns; simpl.
  - split; [by unfold lookup_scheme; rewrite Hns|].
    intros ons onm. unfold lookup_scheme at 1.
    destruct (decide (nsn = ons)) as [<-|Hne].
    + rewrite lookup_insert_eq. simpl. case_decide as Heq.
      * injection Heq as ->. apply lookup_delete_eq.
      * rewrite lookup_delete_ne by congruence.
        by unfold lookup_scheme; rewrite Hns.
    + rewrite lookup_insert_ne by done. case_decide; [congruence | done].
  - split; [by unfold lookup_scheme; rewrite Hns|].
    intros ons onm. case_decide as Heq; [|done].
    injection Heq as -> ->. by unfold lookup_scheme; rewrite Hns.
Qed.

(** X7.  As long as no call is given a namespace named like a member of
    [Object.prototype] (neither this call nor those that built the
    store), and for a name under which no object inherits a member:
    [unregister] returns
    the entry stored under the (defaulted) namespace and the name, or
    nothing when there is none; it removes that entry and no other; a
    second call returns nothing and changes no entry. *)
Theorem unregister_removes_and_returns
    (name : string) (namespace : value) (namespaces : store)
    (other_namespace other_name : string)
    (Hns : inherited_name (namespace_or_global namespace) = false)
    (Hname : inherited_name name = false)
    (Hstore : ordinary namespaces) :
  let nsn := namespace_or_global namespace in
  let namespaces' := fst (unregister name namespace namespaces) in
  snd (unregister name namespace namespaces) = lookup_scheme namespaces nsn name
  /\ lookup_scheme namespaces' nsn name = None
  /\ ((other_namespace, other_name) <> (nsn, name) ->
        lookup_scheme namespaces' other_namespace other_name
        = lookup_scheme namespaces other_namespace other_name)
  /\ snd (unregister name namespace namespaces') = None
  /\ lookup_scheme (fst (unregister name namespace namespaces'))
       other_namespace other_name
     = lookup_scheme namespaces' other_namespace other_name.
Proof.
  intros nsn namespaces'.
  destruct (unregister_spec name namespace namespaces) as [Hret Hleft].
  destruct (unregister_spec name namespace namespaces') as [Hret' Hleft'].
  cbv zeta in Hret, Hleft, Hret', Hleft'. subst nsn namespaces'.
  set (nsn := namespace_or_global namespace) in *.
  set (namespaces' := fst (unregister name namespace namespaces)) in *.
  assert (Hgone : lookup_scheme namespaces' nsn name = None).
  { rewrite Hleft. by case_decide. }
  split; [done|]. split; [done|]. split.
  - intros Hne. rewrite Hleft. by case_decide.
  - split; [by rewrite Hret'|]. rewrite Hleft'. case_decide as Heq; [|done].
    injection Heq as -> ->. by rewrite Hgone.
Qed.

(** X8.  Registering and then unregistering gives back the entry that
    was stored (the provider itself with its validation names) and
    restores every entry lookup of the store from before. *)
Theorem unregister_undoes_register
    (provider : value) (name : string) (namespace : value)
    (namespaces namespaces' : store)
    (Hreg : register provider name namespace namespaces = (namespaces', None)) :
  snd (unregister name namespace namespaces')
  = Some {| name := name; validations := extract_validations provider;
            provider := provider |}
  /\ forall other_namespace other_name,
       lookup_scheme (fst (unregister name namespace namespaces'))
         other_namespace other_name
       = lookup_scheme namespaces other_namespace other_name.
Proof.
  pose proof (register_accepts provider name namespace namespaces) as Hacc.
  rewrite Hreg in Hacc. destruct (proj1 Hacc eq_refl) as (_ & Hfree & _).
  destruct (unregister_spec name namespace namespaces') as [Hret Hleft].
  split.
  - rewrite Hret.
    pose proof (register_entries_after provider name namespace namespaces
                  "" "") as (_ & _ & Hnew).
    rewrite Hreg in Hnew. by apply Hnew.
  - intros ons onm. rewrite Hleft. case_decide as Heq.
    + injection Heq as -> ->. by rewrite Hfree.
    + pose proof (register_entries_after provider name namespace namespaces
                    ons onm) as (_ & Hother & _).
      rewrite Hreg in Hother. by apply Hother.
Qed.

Lemma unregister_undoes_register_witness :
  let namespaces' := fst (register Scenario.flaky "flaky" (VStr "ops") initial) in
  register Scenario.flaky "flaky" (VStr "ops") initial = (namespaces', None)
  /\ snd (unregister "flaky" (VStr "ops") namespaces')
     = Some {| name := "flaky";
               validations := ["isLoggedIn"; "canReadAudit"; "canReadSession"];
               provider := Scenario.flaky |}
  /\ lookup_scheme (fst (unregister "flaky" (VStr "ops") namespaces')) "ops" "flaky"
     = None.
Proof.
  intros namespaces'.
  pose proof (unregister_undoes_register Scenario.flaky "flaky" (VStr "ops")
                initial namespaces' eq_refl) as [Hret Hleft].
  split; [reflexivity|]. split; [exact Hret|].
  rewrite Hleft. reflexivity.
Defined.

(** X9.  Once a name is taken in a namespace, registering any object
    under it again throws the already-registered error and leaves the
    store exactly as it was, whichever way the namespace is spelled
    (absent, empty or by name). *)
Theorem second_register_is_refused
    (provider again : value) (name : string) (namespace namespace2 : value)
    (namespaces namespaces' : store)
    (Hreg : register provider name namespace namespaces = (namespaces', None))
    (Hsame : namespace_or_global namespace2 = namespace_or_global namespace)
    (Hobj : is_proper_object again = true) :
  register again name namespace2 namespaces'
  = (namespaces', Some (AlreadyRegistered name (namespace_or_global namespace))).
Proof.
  pose proof (register_entries_after provider name namespace namespaces "" "")
    as (_ & _ & Hnew).
  rewrite Hreg in Hnew. specialize (Hnew eq_refl). simpl in Hnew.
  rewrite register_unfold. rewrite Hobj, Hsame. simpl. rewrite Hnew.
  f_equal. unfold lookup_scheme in Hnew.
  destruct (namespaces' !! namespace_or_global namespace) as [ns|] eqn:Hns;
    [|done].
  simpl. by apply insert_id.
Qed.

Lemma second_register_is_refused_witness :
  let namespaces' := fst (register Scenario.user "user" VUndef initial) in
  register Scenario.user "user" VUndef initial = (namespaces', None)
  /\ register (VObj []) "user" (VStr "") namespaces'
     = (namespaces', Some (AlreadyRegistered "user" "global")).
Proof.
  intros namespaces'. split; [reflexivity|].
  exact (second_register_is_refused Scenario.user (VObj []) "user" VUndef (VStr "")
           initial namespaces' eq_refl eq_refl eq_refl).
Defined.

End RegistryContract.

(* ===================================================================== *)
(** ** Validated parameter definitions *)
(* ===================================================================== *)

Section ValidatedDefinitions.

Import Matcher.




Lemma Forall_set_prop (P : string * value -> Prop) k v props :
  P (k, v) -> Forall P props -> Forall P (set_prop k v props).
Proof.
  intros Hkv. induction 1 as [|[k' v'] rest Hhd Htl IH]; simpl.
  - by repeat constructor.
  - destruct (String.eqb k k'); constructor; auto.
Qed.

Lemma assoc_map_key (f : string -> value) k ks :
  assoc k (map (fun p => (p, f p)) ks) = if decide (k ∈ ks) then Some (f k) else None.
Proof.
  induction ks as [|k' rest IH]; simpl; [done|].
  destruct (String.eqb_spec k k') as [->|Hne].
  - by rewrite decide_True by left.
  - rewrite IH. destruct (decide (k ∈ rest)).
    + by rewrite decide_True by (by right).
    + rewrite decide_False; [done|]. by intros [?|?]%elem_of_cons.
Qed.

Lemma merge_definitions_lookup
    (overrideDefs baseParams : list (string * value)) (k : string) :
  keys (merge_definitions overrideDefs baseParams) = keys baseParams
  /\ (k ∈ keys baseParams ->
        assoc k (merge_definitions overrideDefs baseParams)
        = match assoc k overrideDefs with
          | Some VUndef => Some (default VUndef (assoc k baseParams))
          | Some override => Some override
          | None =>
              if inherited_name k then Some (inherited k)
              else Some (default VUndef (assoc k baseParams))
          end)
  /\ (k ∉ keys baseParams ->
        assoc k (merge_definitions overrideDefs baseParams) = None).
Proof.
  unfold merge_definitions. split; [|split].
  - unfold keys. rewrite map_map. simpl. by rewrite map_id.
  - intros Hk. rewrite assoc_map_key, decide_True by done. unfold get.
    destruct (assoc k overrideDefs) as [[]|]; simpl; try done.
    destruct (inherited_name k) eqn:Hinh.
    + pose proof (inherited_name_true k Hinh) as Htruthy.
      by destruct (inherited k).
    + by rewrite (inherited_name_false k Hinh).
  - intros Hk. by rewrite assoc_map_key, decide_False.
Qed.

(** X10.  Merging overrides over the provider's defaults keeps exactly
    the names of the defaults, in their order, and drops an override
    whose name is not among them.  A default whose name has an override
    of its own (other than [undefined]) gets the override's definition.
    A default without one keeps its definition, unless it is named like
    a member every object inherits (['toString'], ['constructor'],
    ['__proto__'], ...): the read of the override then finds that
    member, and the member replaces the definition. *)
Theorem merge_keeps_default_names
    (overrideDefs baseParams : list (string * value)) (k : string) :
  keys (merge_definitions overrideDefs baseParams) = keys baseParams
  /\ (k ∈ keys baseParams ->
        assoc k (merge_definitions overrideDefs baseParams)
        = match assoc k overrideDefs with
          | Some VUndef => Some (default VUndef (assoc k baseParams))
          | Some override => Some override
          | None =>
              if inherited_name k then Some (inherited k)
              else Some (default VUndef (assoc k baseParams))
          end)
  /\ (k ∉ keys baseParams ->
        assoc k (merge_definitions overrideDefs baseParams) = None).
Proof. exact (merge_definitions_lookup overrideDefs baseParams k). Qed.

Lemma merge_keeps_default_names_witness :
  let merged :=
    merge_definitions [("target", VStr "?banTargets"); ("reason", VStr "?why")]
                      [("self", VStr "req.auth.user"); ("target", VStr "?targetUserID");
                       ("toString", VStr "?format")] in
  keys merged = ["self"; "target"; "toString"]
  /\ assoc "target" merged = Some (VStr "?banTargets")
  /\ assoc "self" merged = Some (VStr "req.auth.user")
  /\ assoc "toString" merged = Some (inherited "toString")
  /\ assoc "reason" merged = None.
Proof.
  intros merged.
  pose proof (merge_keeps_default_names
                [("target", VStr "?banTargets"); ("reason", VStr "?why")]
                [("self", VStr "req.auth.user"); ("target", VStr "?targetUserID");
                 ("toString", VStr "?format")])
    as H.
  split; [exact (proj1 (H "self"))|].
  split; [apply (proj1 (proj2 (H "target"))); compute_done|].
  split; [apply (proj1 (proj2 (H "self"))); compute_done|].
  split; [apply (proj1 (proj2 (H "toString"))); compute_done|].
  apply (proj2 (proj2 (H "reason"))). compute_done.
Defined.







End ValidatedDefinitions.

(* ===================================================================== *)
(** ** Invariants that reach the matcher *)
(* ===================================================================== *)

Section Invariants.

(** X12.  Every entry of a store built by [register] and [unregister]
    is consistent: it sits under its own name, its provider is an
    object, its validation names are the ones [register] derives from
    that provider, and every default in the provider's [_params] is a
    well-prefixed string. *)
Theorem stored_entries_are_consistent
    (namespaces : Registry.store) (namespace name : string) (e : Registry.entry)
    (Hreach : Registry.reachable namespaces)
    (He : lookup_scheme namespaces namespace name = Some e) :
  Registry.name e = name
  /\ is_proper_object (Registry.provider e) = true
  /\ Registry.validations e = Registry.extract_validations (Registry.provider e)
  /\ forall entries, get (Registry.provider e) "_params" = VObj entries ->
       Forall (fun kv => valid_definition (snd kv)) entries.
Proof.
  revert namespace name e He.
  induction Hreach as [|provider name0 namespace0 namespaces _ IH
                       |name0 namespace0 namespaces _ IH];
    intros namespace name e He.
  - unfold lookup_scheme, Registry.initial in He.
    destruct (decide (namespace = "global")) as [->|Hne].
    + rewrite lookup_singleton_eq in He. simpl in He. by rewrite lookup_empty in He.
    + by rewrite lookup_singleton_ne in He.
  - pose proof (register_entries_after provider name0 namespace0 namespaces
                  namespace name) as (Hfail & Hother & Hnew).
    pose proof (register_accepts provider name0 namespace0 namespaces) as Hacc.
    destruct (snd (Registry.register provider name0 namespace0 namespaces)) eqn:Hres.
    + rewrite Hfail in He by done. by apply (IH namespace name e).
    + destruct (decide ((namespace, name)
                        = (Registry.namespace_or_global namespace0, name0)))
        as [[= -> ->]|Hne].
      * rewrite Hnew in He by done. injection He as <-. simpl.
        destruct (proj1 Hacc eq_refl) as (Hobj & _ & _ & Hparams). by repeat split.
      * rewrite Hother in He by done. by apply (IH namespace name e).
  - destruct (unregister_spec name0 namespace0 namespaces) as [_ Hleft].
    rewrite Hleft in He. case_decide; [done|]. by apply (IH namespace name e).
Qed.

Lemma stored_entries_are_consistent_witness :
  Registry.reachable Scenario.registered
  /\ (exists e, lookup_scheme Scenario.registered "potet" "user" = Some e
                /\ Registry.name e = "user"
                /\ Registry.validations e
                   = Registry.extract_validations (Registry.provider e)).
Proof.
  assert (Hreach : Registry.reachable Scenario.registered).
  { unfold Scenario.registered. repeat apply Registry.reach_register.
    apply Registry.reach_initial. }
  split; [exact Hreach|].
  eexists. split; [reflexivity|].
  match goal with |- Registry.name ?e = _ /\ _ =>
    pose proof (stored_entries_are_consistent Scenario.registered "potet" "user" e
                  Hreach eq_refl) as (Hname & _ & Hvals & _)
  end.
  split; [exact Hname | exact Hvals].
Defined.

Lemma Forall_assign (P : string * value -> Prop) k v props :
  P (k, v) -> Forall P props -> Forall P (assign k v props).
Proof.
  intros Hkv Hprops. unfold assign.
  destruct (assoc k props); [by apply Forall_set_prop|].
  destruct (String.eqb k "__proto__"); [done | by apply Forall_set_prop].
Qed.

Lemma assign_keeps_proto_absent k v props :
  assoc "__proto__" props = None -> assoc "__proto__" (assign k v props) = None.
Proof.
  intros Hnone. destruct (decide (k = "__proto__")) as [->|Hne].
  - by rewrite assign_proto.
  - rewrite assoc_assign_ne; [done|]. by intros <-.
Qed.

Lemma call_keeps_overrides_valid property args b :
  property ∉ Validator.inherited_functions ->
  overrides_valid b ->
  overrides_valid (fst (Validator.call property args b))
  /\ Validator.name (fst (Validator.call property args b)) = Validator.name b
  /\ Validator.namespace (fst (Validator.call property args b))
     = Validator.namespace b.
Proof.
  intros Hown [Hvalid Hproto]. unfold Validator.call, Validator.is_function_property.
  destruct (Validator.own_method_of property) as [m|].
  - destruct (_ && _); [done|].
    destruct m; simpl; try done.
    + unfold Validator.allOf, Validator.ofNames.
      destruct (Validator.push_names args []) as [names [err|]]; [done|].
      by destruct (length names =? 0).
    + unfold Validator.anyOf, Validator.ofNames.
      destruct (Validator.push_names args []) as [names [err|]]; [done|].
      by destruct (length names =? 0).
  - rewrite bool_decide_eq_false_2 by done.
    unfold Validator.setParameter.
    destruct args as [|a [|]]; [done| |done].
    destruct (Validator.finalized b); [done|].
    destruct a; try done.
    destruct (valid_definition_prefix s) eqn:Hs; [|done]. simpl.
    split; [|done]. split.
    + apply Forall_assign; [by exists s | done].
    + by apply assign_keeps_proto_absent.
Qed.

(** X13.  By the calls of its own methods and of parameter setters, in
    any number and order and whether they return or throw, a builder
    made by [create] only ever holds overrides that are well-prefixed
    strings, and none under the name ['__proto__']; so the [params] of
    every descriptor it compiles are such, and its scheme name and
    namespace are the ones it was created with.  (Calls of the functions
    the validator inherits are another matter: [__defineGetter__] can
    replace any of these fields.) *)
Theorem builder_overrides_are_valid
    (schemeName schemeNamespace : string) (calls : list (string * list value))
    (Hcalls : Forall (fun c => fst c ∉ Validator.inherited_functions) calls) :
  let d := Validator.compile
             (Validator.run calls (Validator.create schemeName schemeNamespace)) in
  Forall (fun kv => valid_definition (snd kv)) (d_params d)
  /\ assoc "__proto__" (d_params d) = None
  /\ d_scheme d = schemeName
  /\ d_namespace d = schemeNamespace.
Proof.
  simpl.
  assert (Hinv : forall b, overrides_valid b ->
    overrides_valid (Validator.run calls b)
    /\ Validator.name (Validator.run calls b) = Validator.name b
    /\ Validator.namespace (Validator.run calls b) = Validator.namespace b).
  { induction Hcalls as [|[p a] rest Hp _ IH]; intros b Hb; simpl; [done|].
    destruct (call_keeps_overrides_valid p a b Hp Hb) as (Hv & Hn & Hs).
    destruct (IH _ Hv) as (Hv' & Hn' & Hs'). fold (Validator.run rest) in *.
    split; [done|]. by rewrite Hn', Hs', Hn, Hs. }
  destruct (Hinv (Validator.create schemeName schemeNamespace))
    as ([Hv Hproto] & Hn & Hs); [by split; [constructor|]|].
  by rewrite Hn, Hs.
Qed.

Lemma builder_overrides_are_valid_witness :
  let calls := [("target", [VStr "?banTargets"]); ("self", [VNum 3]);
                ("__proto__", [VStr "?id"]);
                ("parallel", []); ("allOf", [VStr "canBanTarget"])] in
  let d := Validator.compile
             (Validator.run calls (Validator.create "moderation" "global")) in
  Forall (fun c => fst c ∉ Validator.inherited_functions) calls
  /\ d_params d = [("target", VStr "?banTargets")]
  /\ Forall (fun kv => valid_definition (snd kv)) (d_params d)
  /\ assoc "__proto__" (d_params d) = None
  /\ d_scheme d = "moderation" /\ d_namespace d = "global".
Proof.
  intros calls d.
  assert (Hcalls : Forall (fun c => fst c ∉ Validator.inherited_functions) calls).
  { repeat constructor; simpl; compute_done. }
  split; [exact Hcalls|]. split; [reflexivity|].
  exact (builder_overrides_are_valid "moderation" "global" calls Hcalls).
Defined.

End Invariants.

(* ===================================================================== *)
(** ** What a Result says about the validations that ran *)
(* ===================================================================== *)

Section EvaluationContract.

Import Matcher.

Variable validation : nat -> list (string * value) -> request -> call_outcome.
Variable hook :
  nat -> request -> list (string * value) -> list (string * value) -> hook_outcome.
Variable settle : nat -> nat.

Lemma matchTrueValidator_prepared namespaces req validator scheme targets req' params :
  prepared hook namespaces req validator scheme targets req' params ->
  matchTrueValidator validation hook settle namespaces req validator
  = match run_validations validation settle
            (runParallel validator (Registry.provider scheme))
            (Registry.provider scheme) params req' targets with
    | inl e => (req', inl (Thrown e))
    | inr (testResults, thrownErrors) =>
        (req', verdict validator targets testResults thrownErrors)
    end.
Proof.
  intros (Hscheme & (target & Htarget & ->) & Hparams).
  unfold lookup_scheme in Hscheme. unfold matchTrueValidator. rewrite Htarget.
  destruct (namespaces !! d_namespace validator) as [ns|]; [|done].
  simpl in Hscheme. rewrite Hscheme. cbv zeta. by rewrite Hparams.
Qed.

Section Calls.

Variable provider : value.
Variable params : list (string * value).
Variable req : request.

Local Abbreviation call t := (invoke validation provider t params req).

Lemma run_sequential_lengths targets rs th rs' th' :
  run_sequential validation provider params req targets rs th = (rs', th') ->
  length rs' + length th' = length rs + length th + length targets
  /\ exists es, th' = th ++ es.
Proof.
  revert rs th. induction targets as [|t rest IH]; intros rs th; simpl.
  - intros [= <- <-]. split; [simpl; lia|]. exists []. by rewrite app_nil_r.
  - destruct (call t); intros H; destruct (IH _ _ H) as [Hlen [es ->]];
      rewrite ?length_app in Hlen; simpl in Hlen.
    + split; [rewrite ?length_app in *; simpl in *; lia | by eauto].
    + split; [rewrite ?length_app in *; simpl in *; lia|].
      exists (e :: es). by rewrite <- app_assoc.
    + split; [rewrite ?length_app in *; simpl in *; lia|].
      exists (e :: es). by rewrite <- app_assoc.
Qed.

Lemma run_sequential_resolved targets vs rs th :
  Forall2 (fun t v => call t = Resolves v) targets vs ->
  run_sequential validation provider params req targets rs th = (rs ++ vs, th).
Proof.
  intros H. revert rs. induction H as [|t v ts vs' Ht _ IH]; intros rs; simpl.
  - by rewrite app_nil_r.
  - rewrite Ht, IH. by rewrite <- app_assoc.
Qed.

Lemma launch_resolved targets vs promises :
  Forall2 (fun t v => call t = Resolves v) targets vs ->
  launch validation provider params req targets promises
  = inr (promises ++ (Fulfils <$> vs)).
Proof.
  intros H. revert promises.
  induction H as [|t v ts vs' Ht _ IH]; intros promises; simpl.
  - by rewrite app_nil_r.
  - rewrite Ht, IH. by rewrite <- app_assoc.
Qed.

Lemma launch_launched targets promises promises' :
  launch validation provider params req targets promises = inr promises' ->
  exists launched,
    promises' = promises ++ launched
    /\ Forall2 (fun t p => call t = match p with
                                    | Fulfils v => Resolves v
                                    | RejectsWith e => Rejects e
                                    end) targets launched.
Proof.
  revert promises. induction targets as [|t rest IH]; intros promises; simpl.
  - intros [= <-]. exists []. split; [by rewrite app_nil_r | constructor].
  - destruct (call t) eqn:Ht; [| |by intros [=]]; intros H;
      destruct (IH _ H) as (launched & -> & Hall).
    + exists (Fulfils v :: launched). split; [by rewrite <- app_assoc|].
      by constructor.
    + exists (RejectsWith e :: launched). split; [by rewrite <- app_assoc|].
      by constructor.
Qed.

Lemma first_rejection_None i promises earliest :
  first_rejection settle i promises earliest = None ->
  earliest = None /\ Forall (fun p => exists v, p = Fulfils v) promises.
Proof.
  revert i earliest. induction promises as [|p rest IH]; intros i earliest; simpl.
  - by intros ->.
  - destruct p as [v|e]; intros H.
    + destruct (IH _ _ H) as [-> Hall]. split; [done|]. constructor; by eauto.
    + destruct (IH _ _ H) as [Hnone _].
      destruct earliest as [[t e']|]; [|done]. by destruct (settle i <? t).
Qed.

Lemma first_rejection_fulfilled i (vs : list value) earliest :
  first_rejection settle i (Fulfils <$> vs) earliest = earliest.
Proof. revert i. induction vs as [|v rest IH]; intros i; simpl; [done | apply IH]. Qed.

Lemma first_rejection_is_a_rejection i promises earliest t e :
  first_rejection settle i promises earliest = Some (t, e) ->
  (exists t', earliest = Some (t', e)) \/ RejectsWith e ∈ promises.
Proof.
  revert i earliest. induction promises as [|p rest IH]; intros i earliest; simpl.
  - intros ->. left. by eauto.
  - destruct p as [v|e0]; intros H; destruct (IH _ _ H) as [[t' Heq]|Hin].
    + left. by eauto.
    + right. by right.
    + destruct earliest as [[t0 e1]|].
      * destruct (settle i <? t0); injection Heq as _ <-; [right; left | left; by eauto].
      * injection Heq as _ <-. right. left.
    + right. by right.
Qed.

Lemma omap_fulfilled (vs : list value) :
  omap fulfilled_value (Fulfils <$> vs) = vs.
Proof. induction vs as [|v rest IH]; simpl; [done | by f_equal]. Qed.

Lemma run_validations_resolved parallel targets vs :
  Forall2 (fun t v => call t = Resolves v) targets vs ->
  run_validations validation settle parallel provider params req targets
  = inr (vs, []).
Proof.
  intros H. unfold run_validations. destruct parallel.
  - rewrite (launch_resolved _ _ _ H). simpl. unfold Promise_all.
    by rewrite first_rejection_fulfilled, omap_fulfilled.
  - by rewrite (run_sequential_resolved _ _ _ _ H).
Qed.

Lemma run_sequential_raised targets rs th rs' th' :
  Exists (fun t => forall v, call t <> Resolves v) targets ->
  run_sequential validation provider params req targets rs th = (rs', th') ->
  length th < length th'.
Proof.
  intros Hex. revert rs th.
  induction Hex as [t rest Hhd|t rest _ IH]; intros rs th; simpl.
  - destruct (call t) eqn:Ht; [by destruct (Hhd v)| |];
      intros H; apply run_sequential_lengths in H as [_ [es ->]];
      rewrite !length_app; simpl; lia.
  - destruct (call t); intros H; apply IH in H;
      rewrite ?length_app in H; simpl in H; lia.
Qed.

Lemma run_validations_raised parallel targets :
  Exists (fun t => forall v, call t <> Resolves v) targets ->
  match run_validations validation settle parallel provider params req targets with
  | inl _ => True
  | inr (_, thrownErrors) => thrownErrors <> []
  end.
Proof.
  intros Hex. unfold run_validations. destruct parallel.
  - destruct (launch _ _ _ _ _ _) as [|promises] eqn:Hlaunch; [done|].
    destruct (launch_launched _ _ _ Hlaunch) as (launched & -> & Hall).
    simpl. unfold Promise_all.
    destruct (first_rejection settle 0 launched None) as [[t e]|] eqn:Hfirst; [done|].
    exfalso. apply first_rejection_None in Hfirst as [_ Hfulfilled].
    clear Hlaunch. induction Hall as [|t p ts ps Ht _ IH].
    + by apply Exists_nil in Hex.
    + apply Forall_cons in Hfulfilled as [[v ->] Hrest].
      apply Exists_cons in Hex as [Hhd|Htl]; [by destruct (Hhd v) | by apply IH].
  - destruct (run_sequential _ _ _ _ _ _ _) as [rs th] eqn:Hrun.
    apply (run_sequential_raised _ _ _ _ _ Hex) in Hrun.
    destruct th; [simpl in Hrun; lia | done].
Qed.

Lemma resolved_or_raised targets :
  (exists vs, Forall2 (fun t v => call t = Resolves v) targets vs)
  \/ Exists (fun t => forall v, call t <> Resolves v) targets.
Proof.
  induction targets as [|t rest [[vs IH]|IH]].
  - left. exists []. constructor.
  - destruct (call t) eqn:Ht.
    + left. exists (v :: vs). by constructor.
    + right. left. by rewrite Ht.
    + right. left. by rewrite Ht.
  - right. by right.
Qed.

Lemma all_fulfilled (promises : list promise) :
  Forall (fun p => exists v, p = Fulfils v) promises ->
  promises = Fulfils <$> omap fulfilled_value promises.
Proof.
  induction 1 as [|p rest [v ->] _ IH]; simpl; [done|]. by f_equal.
Qed.

Lemma rejection_has_a_target targets launched e :
  Forall2 (fun t p => call t = match p with
                                | Fulfils v => Resolves v
                                | RejectsWith e => Rejects e
                                end) targets launched ->
  RejectsWith e ∈ launched ->
  exists t, t ∈ targets /\ call t = Rejects e.
Proof.
  induction 1 as [|t p ts ps Ht _ IH]; intros Hin.
  - by apply elem_of_nil in Hin.
  - apply elem_of_cons in Hin as [<-|Hin].
    + exists t. split; [left | done].
    + destruct (IH Hin) as (t' & Ht' & Hcall). exists t'. split; [by right | done].
Qed.

Lemma all_true_iff targets vs :
  Forall2 (fun t v => call t = Resolves v) targets vs ->
  Forall (fun z => snd z = VBool true) (zip targets vs)
  <-> Forall (fun t => call t = Resolves (VBool true)) targets.
Proof.
  induction 1 as [|t v ts vs' Ht _ IH]; simpl; [by split; constructor|].
  rewrite !Forall_cons, IH. simpl. rewrite Ht.
  split; [by intros [-> ?] | by intros [[= ->] ?]].
Qed.

Lemma some_true_iff targets vs :
  Forall2 (fun t v => call t = Resolves v) targets vs ->
  Exists (fun z => snd z = VBool true) (zip targets vs)
  <-> Exists (fun t => call t = Resolves (VBool true)) targets.
Proof.
  induction 1 as [|t v ts vs' Ht _ IH]; simpl.
  - split; intros H; by apply Exists_nil in H.
  - rewrite !Exists_cons, IH. simpl. rewrite Ht.
    split; (intros [H|H]; [left | by right]); [by rewrite H | by injection H].
Qed.

End Calls.

Lemma classify_lengths namespace scheme targets i vs p f p' f' :
  classify namespace scheme targets i vs p f = (p', f') ->
  length p' + length f' = length p + length f + length vs.
Proof.
  revert i p f. induction vs as [|v rest IH]; intros i p f; simpl.
  - intros [= <- <-]. lia.
  - destruct v as [| |[]| | | |]; intros H; apply IH in H;
      rewrite ?length_app in H; simpl in H; lia.
Qed.

(** When there are as many results as targets, every result is reported
    under its own target. *)
Lemma classify_aligned namespace scheme pre ts vs p f :
  length ts = length vs ->
  classify namespace scheme (pre ++ ts) (length pre) vs p f
  = (p ++ omap (passed_name namespace scheme) (zip ts vs),
     f ++ omap (failed_entry namespace scheme) (zip ts vs)).
Proof.
  revert pre vs p f. induction ts as [|t ts IH]; intros pre [|v vs] p f Hlen;
    try discriminate Hlen.
  - simpl. by rewrite !app_nil_r.
  - injection Hlen as Hlen. cbn [classify].
    rewrite list_lookup_middle by done. cbn [default].
    replace (pre ++ t :: ts) with ((pre ++ [t]) ++ ts) by (by rewrite <- app_assoc).
    replace (S (length pre)) with (length (pre ++ [t]))
      by (rewrite length_app; simpl; lia).
    destruct v as [| |[]| | | |]; rewrite IH by done; simpl;
      by rewrite <- ?app_assoc.
Qed.

Lemma reported_lengths namespace scheme (zs : list (string * value)) :
  length (omap (passed_name namespace scheme) zs)
  + length (omap (failed_entry namespace scheme) zs) = length zs.
Proof.
  induction zs as [|[t v] rest IH]; csimpl; [done|].
  unfold passed_name at 1, failed_entry at 1. csimpl.
  destruct v as [| |[]| | | |]; csimpl in *; lia.
Qed.

Lemma failed_nil_iff namespace scheme (zs : list (string * value)) :
  omap (failed_entry namespace scheme) zs = []
  <-> Forall (fun z => snd z = VBool true) zs.
Proof.
  induction zs as [|[t v] rest IH]; csimpl; [by split; [constructor|]|].
  rewrite Forall_cons. unfold failed_entry at 1. csimpl.
  destruct v as [| |[]| | | |]; csimpl; rewrite ?IH;
    try (split; [done | by intros [[=] _]]).
  tauto.
Qed.

Lemma passed_pos_iff namespace scheme (zs : list (string * value)) :
  0 < length (omap (passed_name namespace scheme) zs)
  <-> Exists (fun z => snd z = VBool true) zs.
Proof.
  induction zs as [|[t v] rest IH]; simpl.
  - split; [lia | by intros H; apply Exists_nil in H].
  - rewrite Exists_cons. unfold passed_name at 1. csimpl.
    destruct v as [| |[]| | | |]; csimpl; rewrite ?IH;
      try (split; [by right | by intros [[=]|?]]).
    split; [by left | lia].
Qed.

Lemma verdict_fields validator targets testResults thrown r :
  verdict validator targets testResults thrown = inr r ->
  (passedValidations r, failedValidations r)
  = classify (d_namespace validator) (d_scheme validator) targets 0 testResults [] []
  /\ thrownErrors r = thrown.
Proof.
  unfold verdict. destruct (classify _ _ _ _ _ _ _) as [p f].
  repeat match goal with |- context [if ?c then _ else _] => destruct c end;
    by intros [= <-].
Qed.

(** X14.  In sequential mode every target is called exactly once and
    accounted for: in the Result, the passed names, the failed entries
    and the thrown errors together are as many as the targets.  A call
    that throws does not stop the later ones. *)
Theorem sequential_accounts_for_every_target
    (namespaces : Registry.store) (req req' : request) (validator : descriptor)
    (scheme : Registry.entry) (targets : list string)
    (params : list (string * value)) (r : Result)
    (Hprep : prepared hook namespaces req validator scheme targets req' params)
    (Hmode : runParallel validator (Registry.provider scheme) = false)
    (Hrun : snd (matchTrueValidator validation hook settle namespaces req validator)
            = inr r) :
  length (passedValidations r) + length (failedValidations r)
  + length (thrownErrors r) = length targets.
Proof.
  rewrite (matchTrueValidator_prepared _ _ _ _ _ _ _ Hprep) in Hrun.
  unfold run_validations in Hrun. rewrite Hmode in Hrun.
  destruct (run_sequential _ _ _ _ _ _ _) as [rs th] eqn:Hseq.
  apply run_sequential_lengths in Hseq as [Hlen _].
  simpl in Hrun. apply verdict_fields in Hrun as [Hfields ->].
  symmetry in Hfields. apply classify_lengths in Hfields.
  simpl in *. lia.
Qed.

(** X15.  In parallel mode a Result is all or nothing.  Either every
    call resolved, no error is recorded, and each outcome is reported
    under its own target; or some call rejected, the Result holds exactly
    one error, which is the rejection of one of the targets, no passed
    name and no failed entry, and has not passed. *)
Theorem parallel_is_all_or_nothing
    (namespaces : Registry.store) (req req' : request) (validator : descriptor)
    (scheme : Registry.entry) (targets : list string)
    (params : list (string * value)) (r : Result)
    (Hprep : prepared hook namespaces req validator scheme targets req' params)
    (Hmode : runParallel validator (Registry.provider scheme) = true)
    (Hrun : snd (matchTrueValidator validation hook settle namespaces req validator)
            = inr r) :
  (thrownErrors r = []
   /\ exists vs,
        Forall2 (fun t v => invoke validation (Registry.provider scheme) t params req'
                            = Resolves v) targets vs
        /\ passedValidations r
           = omap (passed_name (d_namespace validator) (d_scheme validator))
               (zip targets vs)
        /\ failedValidations r
           = omap (failed_entry (d_namespace validator) (d_scheme validator))
               (zip targets vs))
  \/ (exists e t,
        thrownErrors r = [e]
        /\ t ∈ targets
        /\ invoke validation (Registry.provider scheme) t params req' = Rejects e
        /\ passedValidations r = [] /\ failedValidations r = []
        /\ hasPassed r = false).
Proof.
  rewrite (matchTrueValidator_prepared _ _ _ _ _ _ _ Hprep) in Hrun.
  unfold run_validations in Hrun. rewrite Hmode in Hrun.
  destruct (launch _ _ _ _ _ _) as [|promises] eqn:Hlaunch; [done|].
  destruct (launch_launched _ _ _ _ _ _ Hlaunch) as (launched & -> & Hall).
  simpl in Hrun. unfold Promise_all in Hrun.
  destruct (first_rejection settle 0 launched None) as [[tm e]|] eqn:Hfirst.
  - right. apply first_rejection_is_a_rejection in Hfirst as [[? [=]]|Hin].
    destruct (rejection_has_a_target _ _ _ _ _ _ Hall Hin) as (t & Ht & Hcall).
    exists e, t. simpl in Hrun. unfold verdict in Hrun. simpl in Hrun.
    by injection Hrun as <-.
  - left. apply first_rejection_None in Hfirst as [_ Hfulfilled].
    apply all_fulfilled in Hfulfilled. set (vs := omap fulfilled_value launched) in *.
    rewrite Hfulfilled in Hall. apply Forall2_fmap_r in Hall.
    simpl in Hrun. apply verdict_fields in Hrun as [Hfields ->].
    split; [done|]. exists vs. split; [done|].
    pose proof (classify_aligned (d_namespace validator) (d_scheme validator)
                  [] targets vs [] [] (Forall2_length _ _ _ Hall)) as Hc.
    simpl in Hc. rewrite Hc in Hfields. by injection Hfields as -> ->.
Qed.

(** X16.  When every call resolves, the Result is the same in both
    modes and each outcome is reported under its own target: the passed
    names are the targets that returned exactly [true], the failed
    entries are the others with their explanation, both in target order,
    and no error is recorded. *)
Theorem outcomes_reported_under_their_targets
    (namespaces : Registry.store) (req req' : request) (validator : descriptor)
    (scheme : Registry.entry) (targets : list string)
    (params : list (string * value)) (vs : list value)
    (Hprep : prepared hook namespaces req validator scheme targets req' params)
    (Hmethod : d_method validator = VStr "allOf" \/ d_method validator = VStr "anyOf")
    (Hres : Forall2 (fun t v => invoke validation (Registry.provider scheme) t
                                  params req' = Resolves v) targets vs) :
  exists r,
    matchTrueValidator validation hook settle namespaces req validator = (req', inr r)
    /\ passedValidations r
       = omap (passed_name (d_namespace validator) (d_scheme validator))
           (zip targets vs)
    /\ failedValidations r
       = omap (failed_entry (d_namespace validator) (d_scheme validator))
           (zip targets vs)
    /\ thrownErrors r = [].
Proof.
  rewrite (matchTrueValidator_prepared _ _ _ _ _ _ _ Hprep).
  rewrite (run_validations_resolved _ _ _ _ _ _ Hres).
  pose proof (classify_aligned (d_namespace validator) (d_scheme validator)
                [] targets vs [] [] (Forall2_length _ _ _ Hres)) as Hc.
  simpl in Hc. unfold verdict. rewrite Hc. simpl.
  destruct Hmethod as [-> | ->]; simpl; by eauto.
Qed.

(** X17.  An [allOf] validator passes exactly when every target, called
    with the extracted parameters and the request, resolved to exactly
    [true]; in either mode. *)
Theorem allOf_passes_iff_all_true
    (namespaces : Registry.store) (req req' : request) (validator : descriptor)
    (scheme : Registry.entry) (targets : list string)
    (params : list (string * value))
    (Hprep : prepared hook namespaces req validator scheme targets req' params)
    (Hmethod : d_method validator = VStr "allOf") :
  (exists r, snd (matchTrueValidator validation hook settle namespaces req validator)
             = inr r /\ hasPassed r = true)
  <-> Forall (fun t => invoke validation (Registry.provider scheme) t params req'
                       = Resolves (VBool true)) targets.
Proof.
  rewrite (matchTrueValidator_prepared _ _ _ _ _ _ _ Hprep).
  set (provider := Registry.provider scheme).
  set (mode := runParallel validator provider).
  destruct (resolved_or_raised provider params req' targets)
    as [[vs Hres]|Hraised].
  - rewrite (run_validations_resolved _ _ _ _ _ _ Hres).
    rewrite <- (all_true_iff _ _ _ _ _ Hres).
    rewrite <- (failed_nil_iff (d_namespace validator) (d_scheme validator)).
    pose proof (classify_aligned (d_namespace validator) (d_scheme validator)
                  [] targets vs [] [] (Forall2_length _ _ _ Hres)) as Hc.
    pose proof (reported_lengths (d_namespace validator) (d_scheme validator)
                  (zip targets vs)) as Hlen.
    rewrite length_zip_with_l_eq in Hlen by (by apply Forall2_length in Hres).
    simpl in Hc. unfold verdict. rewrite Hc, Hmethod. simpl.
    destruct (omap (failed_entry _ _) (zip targets vs)) as [|x l] eqn:Hfailed.
    + simpl in Hlen. split; [done|]. intros _. eexists. split; [done|]. simpl.
      rewrite andb_true_r. apply Nat.eqb_eq. lia.
    + split; [|done]. intros (r & [= <-] & Hpass). simpl in Hpass.
      by rewrite andb_false_r in Hpass.
  - pose proof (run_validations_raised provider params req'
                  mode targets Hraised) as Hth.
    split.
    + intros (r & Hr & Hpass).
      destruct (run_validations _ _ _ _ _ _ _) as [|[rs th]]; [done|].
      simpl in Hr. destruct th as [|e th]; [done|].
      destruct (verdict_with_thrown_errors validator targets rs e th)
        as (r' & Hr' & Hfalse & _). congruence.
    + intros Hall. exfalso. clear Hth Hprep.
      induction Hraised as [t rest Hhd|t rest _ IH];
        apply Forall_cons in Hall as [Hhd' Htl]; [by destruct (Hhd (VBool true)) | auto].
Qed.

(** X18.  An [anyOf] validator passes exactly when every target
    resolved (none rejected or threw) and at least one resolved to
    exactly [true]; in either mode. *)
Theorem anyOf_passes_iff_one_true_none_raised
    (namespaces : Registry.store) (req req' : request) (validator : descriptor)
    (scheme : Registry.entry) (targets : list string)
    (params : list (string * value))
    (Hprep : prepared hook namespaces req validator scheme targets req' params)
    (Hmethod : d_method validator = VStr "anyOf") :
  (exists r, snd (matchTrueValidator validation hook settle namespaces req validator)
             = inr r /\ hasPassed r = true)
  <-> Forall (fun t => exists v, invoke validation (Registry.provider scheme) t
                                   params req' = Resolves v) targets
      /\ Exists (fun t => invoke validation (Registry.provider scheme) t params req'
                          = Resolves (VBool true)) targets.
Proof.
  rewrite (matchTrueValidator_prepared _ _ _ _ _ _ _ Hprep).
  set (provider := Registry.provider scheme).
  set (mode := runParallel validator provider).
  destruct (resolved_or_raised provider params req' targets)
    as [[vs Hres]|Hraised].
  - rewrite (run_validations_resolved _ _ _ _ _ _ Hres).
    rewrite <- (some_true_iff _ _ _ _ _ Hres).
    rewrite <- (passed_pos_iff (d_namespace validator) (d_scheme validator)).
    pose proof (classify_aligned (d_namespace validator) (d_scheme validator)
                  [] targets vs [] [] (Forall2_length _ _ _ Hres)) as Hc.
    simpl in Hc. unfold verdict. rewrite Hc, Hmethod. simpl.
    assert (Hall : Forall (fun t => exists v, invoke validation provider t params req'
                                              = Resolves v) targets).
    { eapply Forall2_Forall_l; [exact Hres|]. apply Forall_true.
      intros v t Ht. by exists v. }
    split.
    + intros (r & [= <-] & Hpass). simpl in Hpass. split; [done|].
      by apply Nat.ltb_lt in Hpass.
    + intros [_ Hpos]. eexists. split; [done|]. simpl. by apply Nat.ltb_lt.
  - pose proof (run_validations_raised provider params req'
                  mode targets Hraised) as Hth.
    split.
    + intros (r & Hr & Hpass).
      destruct (run_validations _ _ _ _ _ _ _) as [|[rs th]]; [done|].
      simpl in Hr. destruct th as [|e th]; [done|].
      destruct (verdict_with_thrown_errors validator targets rs e th)
        as (r' & Hr' & Hfalse & _). congruence.
    + intros [Hall _]. exfalso. clear Hth Hprep.
      induction Hraised as [t rest Hhd|t rest _ IH];
        apply Forall_cons in Hall as [[v Hhd'] Htl]; [by destruct (Hhd v) | auto].
Qed.

End EvaluationContract.

Section EvaluationWitnesses.

Import Matcher.

Lemma sequential_accounts_for_every_target_witness :
  let validator :=
    Scenario.flaky_allOf ["isLoggedIn"; "canReadAudit"; "canReadSession"] None in
  let scheme := {| Registry.name := "flaky";
                   Registry.validations :=
                     ["isLoggedIn"; "canReadAudit"; "canReadSession"];
                   Registry.provider := Scenario.flaky |} in
  let r := {| hasPassed := false; passedValidations := ["flaky:isLoggedIn"];
              failedValidations := [];
              thrownErrors := [VStr "database unreachable";
                               VStr "session store timeout"] |} in
  prepared Scenario.hook Scenario.registered Scenario.req validator scheme
    ["isLoggedIn"; "canReadAudit"; "canReadSession"]
    (bind_exports "flaky" [] Scenario.req) []
  /\ runParallel validator (Registry.provider scheme) = false
  /\ snd (matchTrueValidator Scenario.validation Scenario.hook
            Scenario.in_launch_order Scenario.registered Scenario.req validator)
     = inr r
  /\ length (passedValidations r) + length (failedValidations r)
     + length (thrownErrors r) = 3.
Proof.
  intros validator scheme r.
  assert (Hprep : prepared Scenario.hook Scenario.registered Scenario.req validator
                    scheme ["isLoggedIn"; "canReadAudit"; "canReadSession"]
                    (bind_exports "flaky" [] Scenario.req) []).
  { split; [reflexivity|]. split; [|reflexivity].
    eexists. split; reflexivity. }
  split; [exact Hprep|]. split; [reflexivity|]. split; [reflexivity|].
  exact (sequential_accounts_for_every_target Scenario.validation Scenario.hook
           Scenario.in_launch_order Scenario.registered Scenario.req _ validator
           scheme _ _ r Hprep eq_refl eq_refl).
Defined.

Lemma parallel_is_all_or_nothing_witness :
  let validator := Scenario.flaky_allOf ["isLoggedIn"; "canReadAudit"] (Some true) in
  let scheme := {| Registry.name := "flaky";
                   Registry.validations :=
                     ["isLoggedIn"; "canReadAudit"; "canReadSession"];
                   Registry.provider := Scenario.flaky |} in
  let req' := bind_exports "flaky" [] Scenario.req in
  let r := {| hasPassed := false; passedValidations := []; failedValidations := [];
              thrownErrors := [VStr "database unreachable"] |} in
  prepared Scenario.hook Scenario.registered Scenario.req validator scheme
    ["isLoggedIn"; "canReadAudit"] req' []
  /\ runParallel validator (Registry.provider scheme) = true
  /\ snd (matchTrueValidator Scenario.validation Scenario.hook
            Scenario.in_launch_order Scenario.registered Scenario.req validator)
     = inr r
  /\ ((thrownErrors r = []
       /\ exists vs,
            Forall2 (fun t v => invoke Scenario.validation (Registry.provider scheme)
                                  t [] req' = Resolves v)
              ["isLoggedIn"; "canReadAudit"] vs
            /\ passedValidations r
               = omap (passed_name "global" "flaky") (zip ["isLoggedIn"; "canReadAudit"] vs)
            /\ failedValidations r
               = omap (failed_entry "global" "flaky") (zip ["isLoggedIn"; "canReadAudit"] vs))
      \/ (exists e t,
            thrownErrors r = [e]
            /\ t ∈ ["isLoggedIn"; "canReadAudit"]
            /\ invoke Scenario.validation (Registry.provider scheme) t [] req'
               = Rejects e
            /\ passedValidations r = [] /\ failedValidations r = []
            /\ hasPassed r = false)).
Proof.
  intros validator scheme req' r.
  assert (Hprep : prepared Scenario.hook Scenario.registered Scenario.req validator
                    scheme ["isLoggedIn"; "canReadAudit"] req' []).
  { split; [reflexivity|]. split; [|reflexivity].
    eexists. split; reflexivity. }
  split; [exact Hprep|]. split; [reflexivity|]. split; [reflexivity|].
  exact (parallel_is_all_or_nothing Scenario.validation Scenario.hook
           Scenario.in_launch_order Scenario.registered Scenario.req req' validator
           scheme _ [] r Hprep eq_refl eq_refl).
Defined.

Lemma outcomes_reported_under_their_targets_witness :
  let validator :=
    {| d_namespace := "global"; d_scheme := "user"; d_method := VStr "anyOf";
       d_params := []; d_target := TargetList ["*"]; d_parallel := Some true |} in
  let scheme := {| Registry.name := "user";
                   Registry.validations := ["isLoggedIn"; "isAdministrator"];
                   Registry.provider := Scenario.user |} in
  let req' := fst (extractParams Scenario.hook Scenario.req [] Scenario.user "user") in
  let params := [("self", VObj [("id", VNum 7)])] in
  let vs := [VBool true; VObj [("code", VStr "bad")]] in
  prepared Scenario.hook Scenario.registered Scenario.req validator scheme
    ["isLoggedIn"; "isAdministrator"] req' params
  /\ Forall2 (fun t v => invoke Scenario.validation Scenario.user t params req'
                         = Resolves v) ["isLoggedIn"; "isAdministrator"] vs
  /\ exists r,
       matchTrueValidator Scenario.validation Scenario.hook Scenario.in_launch_order
         Scenario.registered Scenario.req validator = (req', inr r)
       /\ passedValidations r = ["user:isLoggedIn"]
       /\ failedValidations r
          = [("user:isAdministrator", VObj [("code", VStr "bad")])]
       /\ thrownErrors r = [].
Proof.
  intros validator scheme req' params vs.
  assert (Hprep : prepared Scenario.hook Scenario.registered Scenario.req validator
                    scheme ["isLoggedIn"; "isAdministrator"] req' params).
  { split; [reflexivity|]. split; [|reflexivity].
    eexists. split; reflexivity. }
  assert (Hres : Forall2 (fun t v => invoke Scenario.validation
                                       (Registry.provider scheme) t params req'
                                     = Resolves v)
                   ["isLoggedIn"; "isAdministrator"] vs).
  { repeat constructor. }
  split; [exact Hprep|]. split; [exact Hres|].
  exact (outcomes_reported_under_their_targets Scenario.validation Scenario.hook
           Scenario.in_launch_order Scenario.registered Scenario.req req' validator
           scheme _ params vs Hprep (or_intror eq_refl) Hres).
Defined.

Lemma allOf_passes_iff_all_true_witness :
  let validator := Scenario.user_in "global" in
  let scheme := {| Registry.name := "user";
                   Registry.validations := ["isLoggedIn"; "isAdministrator"];
                   Registry.provider := Scenario.user |} in
  let req' := fst (extractParams Scenario.hook Scenario.req [] Scenario.user "user") in
  let params := [("self", VObj [("id", VNum 7)])] in
  prepared Scenario.hook Scenario.registered Scenario.req validator scheme
    ["isLoggedIn"] req' params
  /\ d_method validator = VStr "allOf"
  /\ ((exists r, snd (matchTrueValidator Scenario.validation Scenario.hook
                        Scenario.in_launch_order Scenario.registered Scenario.req
                        validator) = inr r /\ hasPassed r = true)
      <-> Forall (fun t => invoke Scenario.validation Scenario.user t params req'
                           = Resolves (VBool true)) ["isLoggedIn"]).
Proof.
  intros validator scheme req' params.
  assert (Hprep : prepared Scenario.hook Scenario.registered Scenario.req validator
                    scheme ["isLoggedIn"] req' params).
  { split; [reflexivity|]. split; [|reflexivity].
    eexists. split; reflexivity. }
  split; [exact Hprep|]. split; [reflexivity|].
  exact (allOf_passes_iff_all_true Scenario.validation Scenario.hook
           Scenario.in_launch_order Scenario.registered Scenario.req req' validator
           scheme _ params Hprep eq_refl).
Defined.

Lemma anyOf_passes_iff_one_true_none_raised_witness :
  let validator :=
    {| d_namespace := "global"; d_scheme := "flaky"; d_method := VStr "anyOf";
       d_params := []; d_target := TargetList ["isLoggedIn"; "canReadAudit"];
       d_parallel := None |} in
  let scheme := {| Registry.name := "flaky";
                   Registry.validations :=
                     ["isLoggedIn"; "canReadAudit"; "canReadSession"];
                   Registry.provider := Scenario.flaky |} in
  let req' := bind_exports "flaky" [] Scenario.req in
  prepared Scenario.hook Scenario.registered Scenario.req validator scheme
    ["isLoggedIn"; "canReadAudit"] req' []
  /\ d_method validator = VStr "anyOf"
  /\ ((exists r, snd (matchTrueValidator Scenario.validation Scenario.hook
                        Scenario.in_launch_order Scenario.registered Scenario.req
                        validator) = inr r /\ hasPassed r = true)
      <-> Forall (fun t => exists v, invoke Scenario.validation Scenario.flaky t []
                                       req' = Resolves v)
            ["isLoggedIn"; "canReadAudit"]
          /\ Exists (fun t => invoke Scenario.validation Scenario.flaky t [] req'
                              = Resolves (VBool true))
               ["isLoggedIn"; "canReadAudit"]).
Proof.
  intros validator scheme req'.
  assert (Hprep : prepared Scenario.hook Scenario.registered Scenario.req validator
                    scheme ["isLoggedIn"; "canReadAudit"] req' []).
  { split; [reflexivity|]. split; [|reflexivity].
    eexists. split; reflexivity. }
  split; [exact Hprep|]. split; [reflexivity|].
  exact (anyOf_passes_iff_one_true_none_raised Scenario.validation Scenario.hook
           Scenario.in_launch_order Scenario.registered Scenario.req req' validator
           scheme _ [] Hprep eq_refl).
Defined.

End EvaluationWitnesses.

(* ===================================================================== *)
(** ** Targets *)
(* ===================================================================== *)

Section Targets.

Import Matcher.

Lemma indexOf_app_notin x pre (l : list string) :
  x ∉ pre -> indexOf x (pre ++ l) = (fun k => length pre + k) <$> indexOf x l.
Proof.
  induction pre as [|y pre IH]; simpl; intros Hx.
  - by destruct (indexOf x l).
  - apply not_elem_of_cons in Hx as [Hne Hx].
    destruct (String.eqb_spec x y); [done|]. rewrite IH by done.
    by destruct (indexOf x l).
Qed.

Lemma indexOf_app_in x pre (l : list string) :
  x ∈ pre -> exists k, indexOf x (pre ++ l) = Some k /\ k < length pre.
Proof.
  induction pre as [|y pre IH]; simpl; intros Hx.
  - by apply elem_of_nil in Hx.
  - destruct (String.eqb_spec x y) as [->|Hne].
    + exists 0. split; [done | lia].
    + apply elem_of_cons in Hx as [?|Hx]; [done|].
      destruct (IH Hx) as (k & -> & Hk). exists (S k). split; [done | lia].
Qed.

Lemma indexOf_first x pre rest :
  indexOf x (pre ++ x :: rest) = Some (length pre) <-> x ∉ pre.
Proof.
  split.
  - intros Hidx Hin. destruct (indexOf_app_in x pre (x :: rest) Hin) as (k & Hk & Hlt).
    rewrite Hk in Hidx. injection Hidx as ->. lia.
  - intros Hx. rewrite indexOf_app_notin by done. simpl.
    rewrite String.eqb_refl. simpl. f_equal. lia.
Qed.

(** The index-based filter keeps the first occurrence of every element. *)
Lemma unique_from arr pre l :
  arr = pre ++ l ->
  let kept :=
    (fix go (i : nat) (l : list string) : list string :=
       match l with
       | [] => []
       | v :: rest =>
           if decide (indexOf v arr = Some i) then v :: go (S i) rest
           else go (S i) rest
       end) (length pre) l in
  NoDup kept
  /\ (forall x, x ∈ kept <-> x ∈ l /\ x ∉ pre)
  /\ (NoDup arr -> kept = l).
Proof.
  revert pre. induction l as [|v rest IH]; intros pre Harr; simpl.
  - split; [constructor|]. split; [|done].
    intros x. split; [by intros ?%elem_of_nil | by intros [?%elem_of_nil _]].
  - assert (Harr' : arr = (pre ++ [v]) ++ rest) by (by rewrite <- app_assoc).
    specialize (IH (pre ++ [v]) Harr').
    rewrite length_app in IH. simpl in IH.
    replace (length pre + 1) with (S (length pre)) in IH by lia.
    destruct IH as (Hnodup & Hmem & Hid).
    pose proof (indexOf_first v pre rest) as Hfirst. rewrite <- Harr in Hfirst.
    case_decide as Hidx.
    + apply Hfirst in Hidx. split; [|split].
      * apply NoDup_cons. split; [|done]. rewrite Hmem.
        intros [_ Hnot]. apply Hnot. apply elem_of_app. right. left.
      * intros x. rewrite elem_of_cons, Hmem, elem_of_cons, not_elem_of_app,
          not_elem_of_cons.
        destruct (decide (x = v)) as [->|Hne]; [tauto|].
        split; [intros [?|(? & ? & _)]; [done | tauto]|].
        intros [[?|?] ?]; [done|]. right. repeat split; try done.
        by intros ?%elem_of_nil.
      * intros Hnd. f_equal. by apply Hid.
    + assert (Hin : v ∈ pre).
      { destruct (decide (v ∈ pre)); [done|]. destruct Hidx. by apply Hfirst. }
      split; [done|]. split.
      * intros x. rewrite Hmem, elem_of_cons, not_elem_of_app, not_elem_of_cons.
        split; [tauto|]. intros [[->|?] Hpre]; [done|].
        repeat split; try done; [by intros -> | by intros ?%elem_of_nil].
      * intros Hnd. exfalso. rewrite Harr in Hnd. apply NoDup_app in Hnd as (_ & Hdisj & _).
        apply (Hdisj v Hin). left.
Qed.

Lemma unique_spec (arr : list string) :
  NoDup (unique arr)
  /\ (forall x, x ∈ unique arr <-> x ∈ arr)
  /\ (NoDup arr -> unique arr = arr).
Proof.
  destruct (unique_from arr [] arr eq_refl) as (Hnodup & Hmem & Hid).
  split; [done|]. split; [|done].
  intros x. rewrite (Hmem x). split; [tauto|]. intros H. split; [done|].
  by intros ?%elem_of_nil.
Qed.

Lemma expand_fold validations target acc :
  fold_left (fun acc v => acc ++ (if String.eqb v "*" then validations else [v]))
    target acc
  = acc ++ (target ≫= fun v => if String.eqb v "*" then validations else [v]).
Proof.
  revert acc. induction target as [|v rest IH]; intros acc; simpl.
  - by rewrite app_nil_r.
  - rewrite IH. by rewrite <- app_assoc.
Qed.

Lemma expand_targets_spec (validations target : list string) :
  NoDup (expand_targets validations target)
  /\ (forall k, k ∈ expand_targets validations target
                <-> (k ∈ target /\ k <> "*") \/ ("*" ∈ target /\ k ∈ validations))
  /\ (NoDup target -> "*" ∉ target -> expand_targets validations target = target)
  /\ (NoDup validations -> expand_targets validations ["*"] = validations).
Proof.
  unfold expand_targets. rewrite expand_fold. simpl.
  set (expanded := target ≫= _).
  destruct (unique_spec expanded) as (Hnodup & Hmem & Hid).
  split; [done|]. split; [|split].
  - intros k. rewrite Hmem. unfold expanded. rewrite list_elem_of_bind. split.
    + intros (v & Hk & Hv). destruct (String.eqb v "*") eqn:Hstar.
      * apply String.eqb_eq in Hstar. subst v. right. by split.
      * apply String.eqb_neq in Hstar.
        apply list_elem_of_singleton in Hk. subst k. left. by split.
    + intros [[Hk Hne]|[Hstar Hk]].
      * exists k. split; [|done]. apply String.eqb_neq in Hne. rewrite Hne. left.
      * exists "*". by split.
  - intros Hnd Hstar.
    assert (Hsame : expanded = target).
    { unfold expanded. clear -Hstar. induction target as [|v rest IH]; [done|].
      apply not_elem_of_cons in Hstar as [Hv Hrest]. simpl.
      apply not_eq_sym, String.eqb_neq in Hv. rewrite Hv. simpl. f_equal.
      by apply IH. }
    rewrite Hsame. destruct (unique_spec target) as (_ & _ & Hid'). by apply Hid'.
  - intros Hnd. destruct (unique_spec validations) as (_ & _ & Hid'). by apply Hid'.
Qed.

(** X19.  The targets of an evaluation never repeat a name, so no
    validation is called twice.  They are the listed names other than
    ['*'], together with all the scheme's validations when ['*'] is
    listed.  A list of distinct names without ['*'] is run as given, in
    its order; ['*'] alone runs the scheme's validations in their
    order. *)
Theorem targets_are_distinct_and_complete (validations target : list string) :
  NoDup (expand_targets validations target)
  /\ (forall k, k ∈ expand_targets validations target
                <-> (k ∈ target /\ k <> "*") \/ ("*" ∈ target /\ k ∈ validations))
  /\ (NoDup target -> "*" ∉ target -> expand_targets validations target = target)
  /\ (NoDup validations -> expand_targets validations ["*"] = validations).
Proof. exact (expand_targets_spec validations target). Qed.

End Targets.

(* ===================================================================== *)
(** ** Errors and what they leave behind *)
(* ===================================================================== *)

Section Errors.

Import Matcher.

Variable validation : nat -> list (string * value) -> request -> call_outcome.
Variable hook :
  nat -> request -> list (string * value) -> list (string * value) -> hook_outcome.
Variable settle : nat -> nat.

(** X20.  When [extractParams] throws, the engine has written nothing to
    the request: every field that the provider's handlers leave alone,
    [permissions] included, is as it was.  The export map is bound only
    after both handlers and every extraction went through. *)
Theorem failed_extraction_binds_nothing
    (req req' : request) (overrideDefs : list (string * value))
    (provider : value) (schemeName k : string) (e : error)
    (Hrun : extractParams hook req overrideDefs provider schemeName = (req', inl e))
    (Hk : hook_preserves hook k) :
  field req' k = field req k.
Proof.
  destruct (extractParams_cases hook req overrideDefs provider schemeName)
    as [Heq|Heq]; rewrite Heq in Hrun; [by injection Hrun as <- _|]. clear Heq.
  set (defs := merge_definitions _ _) in Hrun.
  pose proof (run_hook_preserves hook k provider "before" req defs [] Hk) as Hb.
  destruct (run_hook hook provider "before" req defs []) as [req1 defs1 exp1|req1 e1].
  - destruct (extract_all req1 defs1 []) as [e1|out1]; [by injection Hrun as <- _|].
    pose proof (run_hook_preserves hook k provider "params" req1 out1 exp1 Hk) as Hp.
    destruct (run_hook hook provider "params" req1 out1 exp1) as [req2 out2 exp2|req2 e2];
      [done|].
    injection Hrun as <- _. by rewrite Hp.
  - by injection Hrun as <- _.
Qed.

Lemma extractParams_errors req req' overrideDefs provider schemeName e :
  extractParams hook req overrideDefs provider schemeName = (req', inl e) ->
  (exists n, e = DefinitionWithoutValue n)
  \/ (exists n s, e = DefinitionBadPrefix n s)
  \/ (exists v, e = Thrown v).
Proof.
  destruct (extractParams_cases hook req overrideDefs provider schemeName)
    as [Heq|Heq]; rewrite Heq; [intros [= _ <-]; by eauto|]. clear Heq.
  destruct (run_hook _ _ _ _ _ _) as [req1 defs1 exp1|req1 e1];
    [|intros [= _ <-]; by eauto].
  destruct (extract_all req1 defs1 []) as [e1|out1] eqn:Hall.
  - intros [= _ <-]. revert Hall. generalize (@nil (string * value)).
    induction defs1 as [|[n v] rest IH]; intros out; cbn [extract_all fst]; [done|].
    destruct (extract req1 (n, v)) as [e2|resolved] eqn:Hone; [|by apply IH].
    intros [= <-]. unfold extract in Hone.
    destruct v; try (injection Hone as <-; by eauto).
    + destruct (startsWith "?" s).
      { destruct (field req1 "param"); try done; injection Hone as <-; by eauto. }
      destruct (startsWith "$" s).
      * unfold cookie in Hone.
        destruct (field req1 "cookies"); try done; injection Hone as <-; by eauto.
      * destruct (negb _); [injection Hone as <-; by eauto | done].
    + destruct (instanceof_Object (VObj props));
        [|injection Hone as <-; by eauto].
      destruct (assoc "value" props); [done | injection Hone as <-; by eauto].
  - destruct (run_hook _ _ _ _ _ _) as [req2 out2 exp2|req2 e2]; [done|].
    intros [= _ <-]. by eauto.
Qed.

(** X21.  A scheme that was registered is found: evaluating a descriptor
    for its namespace and name never throws the namespace, scheme or
    malformed-target error.  Once it is unregistered, the same evaluation
    throws the scheme-not-found error (the namespace object stays
    behind), before any handler runs and without touching the request. *)
Theorem registered_scheme_is_found
    (provider : value) (name : string) (namespace : value)
    (namespaces namespaces' : Registry.store) (req : request)
    (validator : descriptor) (target : list string)
    (Hreg : Registry.register provider name namespace namespaces = (namespaces', None))
    (Hns : d_namespace validator = Registry.namespace_or_global namespace)
    (Hname : d_scheme validator = name)
    (Htarget : d_target validator = TargetList target) :
  (forall e, snd (matchTrueValidator validation hook settle namespaces' req validator)
             = inl e ->
     (exists n, e = DefinitionWithoutValue n)
     \/ (exists n s, e = DefinitionBadPrefix n s)
     \/ (exists v, e = Thrown v)
     \/ e = InvalidMethod (d_method validator))
  /\ matchTrueValidator validation hook settle
       (fst (Registry.unregister name namespace namespaces')) req validator
     = (req, inl (SchemeNotFound name (Registry.namespace_or_global namespace))).
Proof.
  pose proof (register_entries_after provider name namespace namespaces "" "")
    as (_ & _ & Hnew).
  rewrite Hreg in Hnew. specialize (Hnew eq_refl). simpl in Hnew.
  pose proof (register_accepts provider name namespace namespaces) as Hacc.
  rewrite Hreg in Hacc. destruct (proj1 Hacc eq_refl) as (_ & _ & Hinh & _).
  unfold lookup_scheme in Hnew.
  destruct (namespaces' !! Registry.namespace_or_global namespace) as [ns|] eqn:Hstore;
    [|done].
  simpl in Hnew. split.
  - intros e. unfold matchTrueValidator. rewrite Htarget, Hns, Hstore, Hname, Hnew.
    cbv zeta.
    destruct (extractParams _ _ _ _ _) as [req' [e'|params]] eqn:Hparams.
    + intros [= <-]. apply extractParams_errors in Hparams. tauto.
    + destruct (run_validations _ _ _ _ _ _ _) as [e'|[rs th]];
        [intros [= <-]; by eauto 6|].
      simpl. unfold verdict. destruct (classify _ _ _ _ _ _ _) as [p f].
      repeat match goal with |- context [if ?c then _ else _] => destruct c end;
        try done.
      intros [= <-]. by eauto 6.
  - unfold matchTrueValidator, Registry.unregister.
    rewrite Htarget, Hns, Hstore, Hname. simpl. rewrite lookup_insert_eq.
    by rewrite lookup_delete_eq, Hinh.
Qed.

End Errors.

Lemma failed_extraction_binds_nothing_witness :
  let provider := VObj [("_params", VObj [("self", VStr "$loggedUser")])] in
  let req := {| Matcher.param := fun _ => VUndef;
                Matcher.fields := [("ip", VStr "10.0.0.1")] |} in
  let req' := fst (Matcher.extractParams Scenario.no_hook req [] provider "user") in
  Matcher.extractParams Scenario.no_hook req [] provider "user"
  = (req', inl (Matcher.Thrown Matcher.type_error))
  /\ hook_preserves Scenario.no_hook "permissions"
  /\ Matcher.field req' "permissions" = VUndef.
Proof.
  intros provider req req'.
  assert (Hk : hook_preserves Scenario.no_hook "permissions") by (by intros ? ? ? ?).
  split; [reflexivity|]. split; [exact Hk|].
  exact (failed_extraction_binds_nothing Scenario.no_hook req req' [] provider "user"
           "permissions" _ eq_refl Hk).
Defined.

Lemma registered_scheme_is_found_witness :
  let namespaces' :=
    fst (Registry.register Scenario.flaky "flaky" (VStr "ops") Registry.initial) in
  let validator :=
    {| d_namespace := "ops"; d_scheme := "flaky"; d_method := VStr "allOf";
       d_params := []; d_target := TargetList ["isLoggedIn"]; d_parallel := None |} in
  Registry.register Scenario.flaky "flaky" (VStr "ops") Registry.initial
  = (namespaces', None)
  /\ (exists r, snd (Matcher.matchTrueValidator Scenario.validation Scenario.hook
                       Scenario.in_launch_order namespaces' Scenario.req validator)
                = inr r /\ Matcher.hasPassed r = true)
  /\ Matcher.matchTrueValidator Scenario.validation Scenario.hook Scenario.in_launch_order
       (fst (Registry.unregister "flaky" (VStr "ops") namespaces')) Scenario.req
       validator
     = (Scenario.req, inl (Matcher.SchemeNotFound "flaky" "ops")).
Proof.
  intros namespaces' validator.
  pose proof (registered_scheme_is_found Scenario.validation Scenario.hook
                Scenario.in_launch_order Scenario.flaky "flaky" (VStr "ops")
                Registry.initial namespaces' Scenario.req validator ["isLoggedIn"]
                eq_refl eq_refl eq_refl eq_refl) as [_ Hgone].
  split; [reflexivity|]. split; [|exact Hgone].
  eexists. split; reflexivity.
Defined.

(* ===================================================================== *)
(** ** Properties of the exported helpers and of compound validators *)
(* ===================================================================== *)

Section Exports.

Import Matcher.

Lemma first_unknown_None validations ecTargets :
  Permissions.first_unknown validations ecTargets = None ->
  forall t, t ∈ ecTargets -> t ∈ validations \/ t = "*".
Proof.
  induction ecTargets as [|n rest IH]; simpl; intros Hnone t Ht.
  - by apply elem_of_nil in Ht.
  - destruct (bool_decide (n ∈ validations)) eqn:Hin; simpl in Hnone.
    + apply bool_decide_eq_true in Hin.
      apply elem_of_cons in Ht as [->|Ht]; [by left | by apply IH].
    + destruct (String.eqb_spec n "*") as [->|Hne]; simpl in Hnone; [|done].
      apply elem_of_cons in Ht as [->|Ht]; [by right | by apply IH].
Qed.

(** X22.  The check that [for] schedules for the ['lifted'] event
    protects the evaluation.  When it passes on a store built by
    [register] / [unregister], none of them given a namespace named like
    a member of [Object.prototype], and for a namespace that is not
    named so either, the builder's target is an array (so the builder was ended
    by [allOf] / [anyOf]; a target left by [all()], [any()] or by no
    terminal call makes the check throw); and the scheme exists and
    every target the evaluation will call is a function member of the
    provider, with one exception: when the target is empty (left by an
    [allOf()] / [anyOf()] that threw) and the scheme is named like a
    member every object inherits, the check passes on that member and
    no scheme need exist. *)
Theorem lift_check_guards_evaluation
    (namespaces : Registry.store) (permissionSchemeName schemeNamespace : string)
    (b : Validator.t)
    (Hstore : Registry.ordinary namespaces)
    (Hns : inherited_name schemeNamespace = false)
    (Hlift : Permissions.lifted namespaces permissionSchemeName schemeNamespace b
             = None) :
  exists target,
    d_target (Validator.compile b) = TargetList target
    /\ (target <> [] \/ inherited_name permissionSchemeName = false ->
          exists scheme,
            lookup_scheme namespaces schemeNamespace permissionSchemeName
            = Some scheme
            /\ forall t, t ∈ expand_targets (Registry.validations scheme) target ->
                 exists f, get (Registry.provider scheme) t = VFun f).
Proof.
  pose proof (ordinary_reachable namespaces Hstore) as Hreach.
  unfold Permissions.lifted in Hlift. rewrite lookup_scheme_default in Hlift.
  destruct (lookup_scheme namespaces schemeNamespace permissionSchemeName)
    as [scheme|] eqn:Hscheme.
  - destruct (d_target (Validator.compile b)) as [| |target]; try done.
    destruct (Permissions.first_unknown _ target) eqn:Hknown; [done|].
    exists target. split; [done|]. intros _. exists scheme. split; [done|].
    intros t Ht.
    assert (Hval : t ∈ Registry.validations scheme).
    { apply (proj1 (proj2 (expand_targets_spec _ _))) in Ht as [[Ht Hne]|[_ Ht]];
        [|done].
      by destruct (first_unknown_None _ _ Hknown t Ht). }
    unfold lookup_scheme in Hscheme.
    destruct (namespaces !! schemeNamespace) as [ns|] eqn:Hnsp; [|done].
    destruct (reachable_validations_sound namespaces Hreach schemeNamespace ns
                permissionSchemeName scheme Hnsp Hscheme t Hval) as [_ Hfun].
    destruct (get (Registry.provider scheme) t); try done. by eauto.
  - destruct (inherited_name permissionSchemeName) eqn:Hinh; [|done].
    destruct (d_target (Validator.compile b)) as [| |[|t target]]; try done.
    exists []. split; [done|]. by intros [?|?].
Qed.

Lemma lift_check_guards_evaluation_witness :
  let b := fst (Validator.call "allOf" [VStr "isLoggedIn"; VStr "isAdministrator"]
                  (Permissions.for_ "user" VUndef)) in
  Registry.ordinary Scenario.registered
  /\ Permissions.lifted Scenario.registered "user" "global" b = None
  /\ Permissions.lifted Scenario.registered "user" "global"
       (fst (Validator.call "all" [] (Permissions.for_ "user" VUndef)))
     = Some Permissions.RuntimeTypeError
  /\ Permissions.lifted Scenario.registered "toString" "global"
       (fst (Validator.call "allOf" [] (Permissions.for_ "toString" VUndef)))
     = None
  /\ exists target,
       d_target (Validator.compile b) = TargetList target
       /\ (target <> [] \/ inherited_name "user" = false ->
             exists scheme,
               lookup_scheme Scenario.registered "global" "user" = Some scheme
               /\ forall t, t ∈ expand_targets (Registry.validations scheme) target ->
                    exists f, get (Registry.provider scheme) t = VFun f).
Proof.
  intros b.
  assert (Hstore : Registry.ordinary Scenario.registered).
  { unfold Scenario.registered.
    repeat (apply Registry.ordinary_register; [reflexivity|]).
    apply Registry.ordinary_initial. }
  split; [exact Hstore|].
  split; [reflexivity|]. split; [reflexivity|]. split; [reflexivity|].
  exact (lift_check_guards_evaluation Scenario.registered "user" "global" b
           Hstore eq_refl eq_refl).
Defined.

(** X23.  [Permissions.anyOf] / [Permissions.allOf] throw exactly when
    they are given fewer than two validators; the compound object they
    return otherwise passes every shape check of
    [matchCompoundValidator] and reaches the fan-out with the list as
    given.  The object [none()] returns is answered at once with the
    no-op Result, which has passed. *)
Theorem compound_constructors_pass_the_guard
    (validator : Type) (m : string) (validatorList : list validator)
    (Hm : m = "allOf" \/ m = "anyOf") :
  (length validatorList < 2 ->
     Permissions.compound m validatorList
     = inl (Permissions.TooFewValidators m (length validatorList)))
  /\ (2 <= length validatorList ->
        exists c, Permissions.compound m validatorList = inr c
                  /\ Compound.method c = VStr m
                  /\ Compound.guard c = Compound.FansOut validatorList)
  /\ Compound.guard (@Permissions.none validator)
     = Compound.Returns Compound.nop_result
  /\ hasPassed Compound.nop_result = true.
Proof.
  unfold Permissions.compound. repeat split.
  - intros Hlen. apply Nat.ltb_lt in Hlen. by rewrite Hlen.
  - intros Hlen. eexists. apply Nat.ltb_ge in Hlen. rewrite Hlen.
    split; [done|]. split; [done|]. unfold Compound.guard. simpl. rewrite Hlen.
    by destruct Hm as [-> | ->].
Qed.

Lemma compound_constructors_pass_the_guard_witness :
  let pair := [Validator.create "creator" "global"; Validator.create "moderation" "global"] in
  Permissions.anyOf pair
  = inr (Compound.Make (VStr "anyOf") (Some pair))
  /\ (exists c, Permissions.anyOf pair = inr c
                /\ Compound.method c = VStr "anyOf"
                /\ Compound.guard c = Compound.FansOut pair)
  /\ Permissions.allOf [Validator.create "creator" "global"]
     = inl (Permissions.TooFewValidators "allOf" 1).
Proof.
  intros pair.
  pose proof (compound_constructors_pass_the_guard Validator.t "anyOf" pair
                (or_intror eq_refl)) as (_ & Hok & _).
  pose proof (compound_constructors_pass_the_guard Validator.t "allOf"
                [Validator.create "creator" "global"] (or_introl eq_refl))
    as (Hfew & _).
  split; [reflexivity|]. split; [apply Hok; simpl; lia|].
  apply Hfew. simpl. lia.
Defined.

(** X24.  After the shape checks, building the compound Result cannot
    throw: its [default] case is unreachable.  The Result has passed
    exactly when every sub-Result has ([allOf]) or at least one has
    ([anyOf]); its passed names are those of the sub-Results, each once;
    every failed entry and every thrown error of every sub-Result is
    kept. *)
Theorem compound_result_after_guard
    (validator : Type) (c : Compound.t validator) (targets : list validator)
    (validationResults : list Result)
    (Hguard : Compound.guard c = Compound.FansOut targets) :
  exists r,
    Compound.merge (Compound.method c) validationResults = inr r
    /\ (Compound.method c = VStr "allOf" /\
        (hasPassed r = true <-> Forall (fun s => hasPassed s = true) validationResults)
        \/ Compound.method c = VStr "anyOf" /\
           (hasPassed r = true <-> Exists (fun s => hasPassed s = true) validationResults))
    /\ NoDup (passedValidations r)
    /\ (forall n, n ∈ passedValidations r
                  <-> exists s, s ∈ validationResults /\ n ∈ passedValidations s)
    /\ failedValidations r = concat (map failedValidations validationResults)
    /\ thrownErrors r = concat (map thrownErrors validationResults).
Proof.
  unfold Compound.guard in Hguard.
  destruct (strict_eq_string (Compound.method c) "NOP"); [done|].
  destruct (Compound.target c) as [l|]; [|done].
  destruct (length l <? 2); [done|].
  destruct (strict_eq_string (Compound.method c) "allOf") eqn:HallOf.
  - assert (Hm : Compound.method c = VStr "allOf").
    { destruct (Compound.method c); try done. simpl in HallOf.
      by apply String.eqb_eq in HallOf as ->. }
    unfold Compound.merge. rewrite Hm. simpl. eexists. split; [done|]. simpl.
    destruct (unique_spec (concat (map passedValidations validationResults)))
      as (Hnodup & Hmem & _).
    split; [left; split; [done|]|].
    { rewrite <- Is_true_true, forallb_True. apply Forall_iff. intros s.
      by rewrite Is_true_true. }
    split; [done|]. split; [|done].
    intros n. rewrite Hmem, list_elem_of_In, in_concat. split.
    + intros (names & Hnames & Hn). apply in_map_iff in Hnames as (s & <- & Hs).
      exists s. by rewrite !list_elem_of_In.
    + intros (s & Hs & Hn). exists (passedValidations s).
      rewrite <- !list_elem_of_In. split; [|done].
      apply list_elem_of_In, in_map. by apply list_elem_of_In.
  - destruct (strict_eq_string (Compound.method c) "anyOf") eqn:HanyOf; [|done].
    assert (Hm : Compound.method c = VStr "anyOf").
    { destruct (Compound.method c); try done. simpl in HanyOf.
      by apply String.eqb_eq in HanyOf as ->. }
    unfold Compound.merge. rewrite Hm. simpl. eexists. split; [done|]. simpl.
    destruct (unique_spec (concat (map passedValidations validationResults)))
      as (Hnodup & Hmem & _).
    split; [right; split; [done|]|].
    { rewrite <- Is_true_true, existb_True.
      split; intros H; (eapply Exists_impl; [exact H|]); intros s;
        by rewrite Is_true_true. }
    split; [done|]. split; [|done].
    intros n. rewrite Hmem, list_elem_of_In, in_concat. split.
    + intros (names & Hnames & Hn). apply in_map_iff in Hnames as (s & <- & Hs).
      exists s. by rewrite !list_elem_of_In.
    + intros (s & Hs & Hn). exists (passedValidations s).
      rewrite <- !list_elem_of_In. split; [|done].
      apply list_elem_of_In, in_map. by apply list_elem_of_In.
Qed.

End Exports.

Lemma compound_result_after_guard_witness :
  let pair := [Validator.create "creator" "global"; Validator.create "moderation" "global"] in
  let c := Compound.Make (VStr "anyOf") (Some pair) in
  let threw := {| Matcher.hasPassed := false; Matcher.passedValidations := ["creator:isOwner"];
                  Matcher.failedValidations := [];
                  Matcher.thrownErrors := [VStr "database unreachable"] |} in
  let passed := {| Matcher.hasPassed := true;
                   Matcher.passedValidations := ["moderation:isAdministrator"];
                   Matcher.failedValidations := []; Matcher.thrownErrors := [] |} in
  Compound.guard c = Compound.FansOut pair
  /\ Compound.merge (VStr "anyOf") [threw; passed]
     = inr {| Matcher.hasPassed := true;
              Matcher.passedValidations :=
                ["creator:isOwner"; "moderation:isAdministrator"];
              Matcher.failedValidations := [];
              Matcher.thrownErrors := [VStr "database unreachable"] |}
  /\ exists r, Compound.merge (Compound.method c) [threw; passed] = inr r
               /\ NoDup (Matcher.passedValidations r).
Proof.
  intros pair c threw passed.
  destruct (compound_result_after_guard Validator.t c pair [threw; passed] eq_refl)
    as (r & Hr & _ & Hnodup & _).
  split; [reflexivity|]. split; [reflexivity|]. by exists r.
Defined.

Section Verdicts.

Import Matcher.

Variable validation : nat -> list (string * value) -> request -> call_outcome.
Variable hook :
  nat -> request -> list (string * value) -> list (string * value) -> hook_outcome.
Variable compile_of : nat -> descriptor.
Variable matchCompoundValidator : request -> value -> request * (error + Result).
Variable settle : nat -> nat.

Lemma verdict_passed validator targets testResults thrown r :
  verdict validator targets testResults thrown = inr r ->
  hasPassed r = true ->
  thrown = []
  /\ (d_method validator = VStr "allOf" /\ failedValidations r = []
      \/ d_method validator = VStr "anyOf" /\ passedValidations r <> []).
Proof.
  unfold verdict, comma. destruct (classify _ _ _ _ _ _ _) as [p f].
  destruct thrown; simpl; [|by intros [= <-]].
  destruct (d_method validator) as [| | | |m| |]; simpl; try done.
  destruct (String.eqb_spec m "allOf") as [->|_].
  - intros [= <-]. simpl. rewrite andb_true_iff, !Nat.eqb_eq. intros [_ Hf].
    split; [done|]. left. split; [done|]. by destruct f.
  - destruct (String.eqb_spec m "anyOf") as [->|_]; [|done].
    intros [= <-]. simpl. rewrite Nat.ltb_lt. intros Hp.
    split; [done|]. right. split; [done|]. destruct p; [simpl in Hp; lia | done].
Qed.

(** X25.  What a passing Result of a simple validator guarantees, for
    any registry, request and descriptor: no error was recorded, the
    method is ['allOf'] or ['anyOf'], an ['allOf'] Result has no failed
    entry and an ['anyOf'] Result names at least one passed validation. *)
Theorem passing_result_has_no_errors
    (namespaces : Registry.store) (req req' : request) (validator : descriptor)
    (r : Result)
    (Hrun : matchTrueValidator validation hook settle namespaces req validator
            = (req', inr r))
    (Hpass : hasPassed r = true) :
  thrownErrors r = []
  /\ (d_method validator = VStr "allOf" /\ failedValidations r = []
      \/ d_method validator = VStr "anyOf" /\ passedValidations r <> []).
Proof.
  unfold matchTrueValidator in Hrun.
  destruct (d_target validator) as [| |target]; try done.
  destruct (namespaces !! d_namespace validator) as [ns|]; [|done].
  destruct (ns !! d_scheme validator) as [scheme|];
    [|by destruct (inherited_name _)].
  destruct (extractParams _ _ _ _ _) as [req1 [e|params]]; [done|].
  destruct (run_validations _ _ _ _ _ _ _) as [e|[rs th]]; [done|].
  injection Hrun as _ Hverdict.
  destruct (verdict_passed _ _ _ _ _ Hverdict Hpass) as [-> Hmethod].
  split; [|done]. by apply verdict_fields in Hverdict as [_ ->].
Qed.

(** X26.  An ['allOf'] compound of sub-Results that carry no failure
    and no error when they have passed (as every ['allOf'] Result of a
    simple validator does) carries none itself when it has passed. *)
Theorem passing_allOf_compound_is_clean
    (validationResults : list Result) (r : Result)
    (Hsubs : Forall (fun s => hasPassed s = true ->
                              thrownErrors s = [] /\ failedValidations s = [])
               validationResults)
    (Hmerge : Compound.merge (VStr "allOf") validationResults = inr r)
    (Hpass : hasPassed r = true) :
  thrownErrors r = [] /\ failedValidations r = [].
Proof.
  unfold Compound.merge in Hmerge. simpl in Hmerge. injection Hmerge as <-.
  simpl in *. pose proof (proj1 (forallb_forall _ _) Hpass) as Hall.
  assert (Hclean : Forall (fun s => thrownErrors s = [] /\ failedValidations s = [])
                     validationResults).
  { apply Forall_forall. intros s Hs. rewrite Forall_forall in Hsubs.
    apply (Hsubs s Hs). apply Hall. by apply list_elem_of_In. }
  clear Hsubs Hpass Hall.
  induction Hclean as [|s rest [Hth Hf] _ [IHth IHf]]; simpl; [done|].
  by rewrite Hth, Hf, IHth, IHf.
Qed.

(** X27.  The object [compile()] returns has a [scheme] field and no
    [schema] field, and the already-compiled check of [matcher] looks
    for [schema]; so a compiled descriptor handed to [matcher] is never
    refused as already compiled.  It is refused for having no method
    when the builder was not finalized, and is otherwise passed on to the
    compound matcher. *)
Theorem compiled_descriptor_skips_the_compiled_check
    (namespaces : Registry.store) (req : request) (d : descriptor) :
  get (descriptor_object d) "schema" = VUndef
  /\ get (descriptor_object d) "scheme" = VStr (d_scheme d)
  /\ matcher validation hook compile_of matchCompoundValidator settle namespaces req
       (Plain (descriptor_object d))
     = if String.eqb (typeof (d_method d)) "string"
       then matchCompoundValidator req (descriptor_object d)
       else (req, inl NoCompileNoMethod).
Proof.
  unfold matcher, descriptor_object.
  destruct (d_parallel d); simpl; (split; [done|]); (split; [done|]);
    by destruct (String.eqb (typeof (d_method d)) "string").
Qed.

End Verdicts.

Lemma passing_result_has_no_errors_witness :
  let run := Matcher.matchTrueValidator Scenario.validation Scenario.hook
               Scenario.in_launch_order Scenario.registered Scenario.req
               (Scenario.user_in "global") in
  let r := {| Matcher.hasPassed := true;
              Matcher.passedValidations := ["user:isLoggedIn"];
              Matcher.failedValidations := []; Matcher.thrownErrors := [] |} in
  run = (fst run, inr r)
  /\ Matcher.thrownErrors r = []
  /\ (d_method (Scenario.user_in "global") = VStr "allOf"
      /\ Matcher.failedValidations r = []
      \/ d_method (Scenario.user_in "global") = VStr "anyOf"
         /\ Matcher.passedValidations r <> []).
Proof.
  intros run r. split; [reflexivity|].
  exact (passing_result_has_no_errors Scenario.validation Scenario.hook
           Scenario.in_launch_order Scenario.registered Scenario.req (fst run)
           (Scenario.user_in "global") r eq_refl eq_refl).
Defined.

Lemma passing_allOf_compound_is_clean_witness :
  let a := {| Matcher.hasPassed := true;
              Matcher.passedValidations := ["creator:canManageCreator"];
              Matcher.failedValidations := []; Matcher.thrownErrors := [] |} in
  let b := {| Matcher.hasPassed := true;
              Matcher.passedValidations := ["moderation:isAdministrator"];
              Matcher.failedValidations := []; Matcher.thrownErrors := [] |} in
  let r := {| Matcher.hasPassed := true;
              Matcher.passedValidations :=
                ["creator:canManageCreator"; "moderation:isAdministrator"];
              Matcher.failedValidations := []; Matcher.thrownErrors := [] |} in
  Forall (fun s => Matcher.hasPassed s = true ->
                   Matcher.thrownErrors s = [] /\ Matcher.failedValidations s = [])
    [a; b]
  /\ Compound.merge (VStr "allOf") [a; b] = inr r
  /\ Matcher.thrownErrors r = [] /\ Matcher.failedValidations r = [].
Proof.
  intros a b r.
  assert (Hsubs : Forall (fun s => Matcher.hasPassed s = true ->
                     Matcher.thrownErrors s = [] /\ Matcher.failedValidations s = [])
                    [a; b]).
  { by repeat constructor. }
  split; [exact Hsubs|]. split; [reflexivity|].
  exact (passing_allOf_compound_is_clean [a; b] r Hsubs eq_refl eq_refl).
Defined.

Lemma register_accepts_iff_witness :
  inherited_name "global" = false
  /\ Registry.ordinary Registry.initial
  /\ Registry.initial !! "toString" = None
  /\ snd (Registry.register Scenario.user "user" VUndef Registry.initial) = None
  /\ is_proper_object Scenario.user = true
  /\ lookup_scheme Registry.initial "global" "user" = None
  /\ (forall entries, get Scenario.user "_params" = VObj entries ->
        Forall (fun kv => valid_definition (snd kv)) entries)
  /\ snd (Registry.register (VObj [("_params", VObj [("p1", VStr "#what")])])
            "badParamDefs" VUndef Registry.initial)
     <> None
  /\ snd (Registry.register (VObj []) "toString" VUndef Registry.initial) <> None
  /\ fst (Registry.register Scenario.user "user" VUndef Registry.initial)
       !! "__proto__" = None.
Proof.
  pose proof (register_accepts_iff Scenario.user "user" VUndef Registry.initial
                eq_refl Registry.ordinary_initial) as [Hgood Hordinary].
  pose proof (register_accepts_iff (VObj [("_params", VObj [("p1", VStr "#what")])])
                "badParamDefs" VUndef Registry.initial eq_refl
                Registry.ordinary_initial)
    as [Hbad _].
  pose proof (register_accepts_iff (VObj []) "toString" VUndef Registry.initial
                eq_refl Registry.ordinary_initial) as [Hinherited _].
  split; [reflexivity|]. split; [exact Registry.ordinary_initial|].
  split; [reflexivity|]. split; [reflexivity|].
  destruct (proj1 Hgood eq_refl) as (Hobj & Hfree & _ & Hparams).
  split; [exact Hobj|]. split; [exact Hfree|]. split; [exact Hparams|].
  split; [|split; [|exact (Hordinary "__proto__" eq_refl)]].
  - intros Hnone. destruct (proj1 Hbad Hnone) as (_ & _ & _ & Hall).
    specialize (Hall _ eq_refl). apply Forall_cons in Hall as [(s & Hs & Hprefix) _].
    simpl in Hs. injection Hs as <-. discriminate Hprefix.
  - intros Hnone. destruct (proj1 Hinherited Hnone) as (_ & _ & Hname & _).
    discriminate Hname.
Defined.

Lemma register_touches_one_entry_witness :
  let namespaces := fst (Registry.register Scenario.user "user" VUndef Registry.initial) in
  let namespaces' := fst (Registry.register Scenario.flaky "flaky" VUndef namespaces) in
  Registry.ordinary namespaces
  /\ lookup_scheme namespaces' "global" "user" = lookup_scheme namespaces "global" "user"
  /\ lookup_scheme namespaces' "global" "flaky"
     = Some {| Registry.name := "flaky";
               Registry.validations := Registry.extract_validations Scenario.flaky;
               Registry.provider := Scenario.flaky |}.
Proof.
  intros namespaces namespaces'.
  assert (Hstore : Registry.ordinary namespaces).
  { apply Registry.ordinary_register; [reflexivity | apply Registry.ordinary_initial]. }
  pose proof (register_touches_one_entry Scenario.flaky "flaky" VUndef namespaces
                "global" "user" eq_refl Hstore) as (_ & Hother & Hnew).
  split; [exact Hstore|].
  split; [apply Hother; discriminate | apply Hnew; reflexivity].
Defined.

Lemma unregister_removes_and_returns_witness :
  let namespaces' := fst (Registry.unregister "user" VUndef Scenario.registered) in
  Registry.ordinary Scenario.registered
  /\ snd (Registry.unregister "user" VUndef Scenario.registered)
     = lookup_scheme Scenario.registered "global" "user"
  /\ lookup_scheme namespaces' "global" "user" = None
  /\ lookup_scheme namespaces' "potet" "user"
     = lookup_scheme Scenario.registered "potet" "user"
  /\ snd (Registry.unregister "user" VUndef namespaces') = None.
Proof.
  intros namespaces'.
  assert (Hstore : Registry.ordinary Scenario.registered).
  { unfold Scenario.registered.
    repeat (apply Registry.ordinary_register; [reflexivity|]).
    apply Registry.ordinary_initial. }
  pose proof (unregister_removes_and_returns "user" VUndef Scenario.registered
                "potet" "user" eq_refl eq_refl Hstore)
    as (Hret & Hgone & Hother & Hagain & _).
  split; [exact Hstore|].
  split; [exact Hret|]. split; [exact Hgone|].
  split; [apply Hother; discriminate | exact Hagain].
Defined.

Lemma targets_are_distinct_and_complete_witness :
  Matcher.expand_targets ["isLoggedIn"; "isAdministrator"]
    ["isAdministrator"; "*"; "isAdministrator"]
  = ["isAdministrator"; "isLoggedIn"]
  /\ NoDup (Matcher.expand_targets ["isLoggedIn"; "isAdministrator"]
              ["isAdministrator"; "*"; "isAdministrator"])
  /\ Matcher.expand_targets ["isLoggedIn"; "isAdministrator"]
       ["isAdministrator"; "isLoggedIn"]
     = ["isAdministrator"; "isLoggedIn"].
Proof.
  pose proof (targets_are_distinct_and_complete ["isLoggedIn"; "isAdministrator"]
                ["isAdministrator"; "*"; "isAdministrator"]) as (Hnodup & _).
  pose proof (targets_are_distinct_and_complete ["isLoggedIn"; "isAdministrator"]
                ["isAdministrator"; "isLoggedIn"]) as (_ & _ & Hid & _).
  split; [reflexivity|]. split; [exact Hnodup|].
  apply Hid; [|compute_done].
  apply NoDup_cons. split; [compute_done|].
  apply NoDup_cons. split; [compute_done | constructor].
Defined.
